(** * A shallow embedding of the dispatch engine of dir-content-diff

    The modelled code lives in [dir_content_diff/core.py] (and its twin
    [dir_content_diff/config.py]), the strategy call in
    [dir_content_diff/base_comparators.py] and the message formatter in
    [dir_content_diff/util.py].

    Modelling choices:
    - Python strings are [string]; file paths are POSIX strings, [a / b]
      being [a ++ "/" ++ b].
    - A Python [dict] is an association list kept in insertion order;
      assigning an existing key replaces its value in place ([dict_set]).
    - The inner dictionaries of [specific_args] are objects shared with the
      caller: they live in a heap ([heap]) and the outer dictionary holds
      references to them, so that the in-place [pop]s of the code are
      visible to every holder of the same dictionary.
    - Compiled regular expressions are abstracted by two functions:
      [re_compiles p] (does [re.compile(p)] succeed) and [re_match p s]
      (is [re.compile(p).match(s)] not [None]). A compiled pattern is
      identified by its source string, as [re.Pattern] objects compare.
    - A comparator (strategy) object is a record with its class name, whether
      it is a [BaseComparator] instance, and an identity; what calling it does
      is the parameter [invoke], what exporting a formatted file with it
      does is the parameter [export].
    - Exceptions are values of [pyexc]; a computation that may raise and that
      reads and writes the heap lives in the monad [M]. *)

From Stdlib Require Import String Ascii List Bool Arith ZArith Lia.
From Stdlib Require Import Permutation Sorted DecimalString.
Import ListNotations.
Open Scope list_scope.
Open Scope string_scope.

(** ** Python values *)

(** A Python exception: its class name, the [str()] of each of its
    [args] ([None] when [str()] of that argument itself raises), and the
    [str()] of the exception object. *)
Record pyexc := mk_exc {
  exc_type : string;
  exc_args : list (option string);
  exc_str : string
}.

Definition value_error (msg : string) : pyexc :=
  mk_exc "ValueError" [Some msg] msg.
Definition runtime_error (msg : string) : pyexc :=
  mk_exc "RuntimeError" [Some msg] msg.
Definition type_error (msg : string) : pyexc :=
  mk_exc "TypeError" [Some msg] msg.

(** A comparator object ([BaseComparator] instance or plain callable). *)
Record strategy := mk_strategy {
  s_class : string;   (* [type(c).__name__] *)
  s_base : bool;      (* [isinstance(c, BaseComparator)] *)
  s_id : nat          (* object identity *)
}.

(** Values stored in the inner dictionaries of [specific_args]. *)
Inductive argval :=
| ANone
| AStrategy (c : strategy)
| AStr (s : string)
| AList (l : list string)                (* a list of [str] *)
| ADict (d : list (string * string))     (* a dict: key -> repr of the value *)
| AAtom (r : string).                    (* any other (truthy) value, by its repr *)

Definition dict := list (string * argval).

(** What a per-file comparison returns: [False], [True], [None], a message,
    a raw diff collection (a list or a dict) of the given size. *)
Inductive pyval :=
| VFalse
| VTrue
| VNone
| VStr (s : string)
| VRaw (size : nat).

(** Python truthiness of a result ([if result:]). *)
Definition truthy (v : pyval) : bool :=
  match v with
  | VFalse | VNone => false
  | VTrue => true
  | VStr s => negb (String.eqb s "")
  | VRaw n => negb (Nat.eqb n 0)
  end.

(** [result is not False]. *)
Definition is_not_False (v : pyval) : bool :=
  match v with VFalse => false | _ => true end.

(** ** Dictionaries as association lists *)

Section Dicts.
Context {K V : Type} (eqk : K -> K -> bool).

Fixpoint dict_get (k : K) (d : list (K * V)) : option V :=
  match d with
  | [] => None
  | (k', v) :: d' => if eqk k k' then Some v else dict_get k d'
  end.

(** [d[k] = v]: replace in place, or append a new key at the end. *)
Fixpoint dict_set (k : K) (v : V) (d : list (K * V)) : list (K * V) :=
  match d with
  | [] => [(k, v)]
  | (k', v') :: d' => if eqk k k' then (k', v) :: d' else (k', v') :: dict_set k v d'
  end.

Definition dict_remove (k : K) (d : list (K * V)) : list (K * V) :=
  filter (fun kv => negb (eqk k (fst kv))) d.

Definition dict_mem (k : K) (d : list (K * V)) : bool :=
  match dict_get k d with Some _ => true | None => false end.

(** [d.pop(k, default)]: the value and the dictionary without [k]. *)
Definition dict_pop (k : K) (dflt : V) (d : list (K * V)) : V * list (K * V) :=
  match dict_get k d with
  | Some v => (v, dict_remove k d)
  | None => (dflt, d)
  end.

End Dicts.

Definition opt_str_eqb (a b : option string) : bool :=
  match a, b with
  | None, None => true
  | Some x, Some y => String.eqb x y
  | _, _ => false
  end.

(** ** The heap of shared dictionaries and the state/error monad *)

Definition heap := nat -> dict.

Definition heap_upd (h : heap) (i : nat) (d : dict) : heap :=
  fun j => if Nat.eqb j i then d else h j.

Inductive outcome (A : Type) :=
| Ret (a : A)
| Raise (e : pyexc).
Arguments Ret {A} a.
Arguments Raise {A} e.

Definition M (A : Type) := heap -> outcome A * heap.

Definition ret {A} (a : A) : M A := fun h => (Ret a, h).
Definition raise {A} (e : pyexc) : M A := fun h => (Raise e, h).
Definition bind {A B} (m : M A) (k : A -> M B) : M B :=
  fun h => match m h with
           | (Ret a, h') => k a h'
           | (Raise e, h') => (Raise e, h')
           end.
(** [try: m except Exception as e: handler(e)]. *)
Definition catch {A} (m : M A) (handler : pyexc -> M A) : M A :=
  fun h => match m h with
           | (Ret a, h') => (Ret a, h')
           | (Raise e, h') => handler e h'
           end.
Definition get_dict (i : nat) : M dict := fun h => (Ret (h i), h).
Definition put_dict (i : nat) (d : dict) : M unit := fun h => (Ret tt, heap_upd h i d).

Notation "x <- m ;; k" := (bind m (fun x => k))
  (at level 61, m at next level, right associativity).
Notation "m ;;; k" := (bind m (fun _ => k))
  (at level 61, right associativity).

(** Lift a pure result into [M]. *)
Definition lift {A} (o : outcome A) : M A := fun h => (o, h).

(** ** Small string helpers *)

Fixpoint chars (s : string) : list string :=
  match s with
  | EmptyString => []
  | String c s' => String c EmptyString :: chars s'
  end.

Definition is_space (c : ascii) : bool :=
  match nat_of_ascii c with
  | 32 | 9 | 10 | 11 | 12 | 13 => true
  | _ => false
  end.

(** [len(s.strip()) == 0]. *)
Fixpoint is_blank (s : string) : bool :=
  match s with
  | EmptyString => true
  | String c s' => is_space c && is_blank s'
  end.

(** ** ComparisonConfig *)

Inductive export_flag := EFBool (b : bool) | EFStr (s : string).
Inductive executor := Sequential | Thread | Process.

(** The arguments of [ComparisonConfig(...)]. *)
Record config_args := mk_args {
  a_include : option (list string);
  a_exclude : option (list string);
  a_comparators : option (list (option string * strategy));
  a_specific_args : option (list (string * nat));
  a_return_raw_diffs : bool;
  a_export : export_flag;
  a_executor : executor;
  a_max_workers : option Z
}.

Definition default_args : config_args :=
  mk_args None None None None false (EFBool false) Sequential None.

(** A constructed [ComparisonConfig]; the outer [specific_args] dictionary
    maps keys to references to inner dictionaries in the heap. *)
Record config := mk_config {
  include_patterns : option (list string);
  exclude_patterns : option (list string);
  comparators : list (option string * strategy);
  specific_args : list (string * nat);
  return_raw_diffs : bool;
  export_formatted_files : export_flag;
  executor_type : executor;
  max_workers : option Z;
  compiled_include_patterns : list string;
  compiled_exclude_patterns : list string;
  pattern_specific_args : list (string * nat)
}.

(** Keyword arguments of [compare_trees] / [attrs.evolve]. *)
Inductive cfg_kw :=
| KwInclude (v : option (list string))
| KwExclude (v : option (list string))
| KwComparators (v : option (list (option string * strategy)))
| KwSpecificArgs (v : option (list (string * nat)))
| KwReturnRawDiffs (b : bool)
| KwExport (e : export_flag)
| KwExecutor (x : executor)
| KwMaxWorkers (w : option Z).

Definition apply_kw (a : config_args) (kw : cfg_kw) : config_args :=
  match kw with
  | KwInclude v => mk_args v (a_exclude a) (a_comparators a) (a_specific_args a)
                     (a_return_raw_diffs a) (a_export a) (a_executor a) (a_max_workers a)
  | KwExclude v => mk_args (a_include a) v (a_comparators a) (a_specific_args a)
                     (a_return_raw_diffs a) (a_export a) (a_executor a) (a_max_workers a)
  | KwComparators v => mk_args (a_include a) (a_exclude a) v (a_specific_args a)
                     (a_return_raw_diffs a) (a_export a) (a_executor a) (a_max_workers a)
  | KwSpecificArgs v => mk_args (a_include a) (a_exclude a) (a_comparators a) v
                     (a_return_raw_diffs a) (a_export a) (a_executor a) (a_max_workers a)
  | KwReturnRawDiffs v => mk_args (a_include a) (a_exclude a) (a_comparators a)
                     (a_specific_args a) v (a_export a) (a_executor a) (a_max_workers a)
  | KwExport v => mk_args (a_include a) (a_exclude a) (a_comparators a)
                     (a_specific_args a) (a_return_raw_diffs a) v (a_executor a) (a_max_workers a)
  | KwExecutor v => mk_args (a_include a) (a_exclude a) (a_comparators a)
                     (a_specific_args a) (a_return_raw_diffs a) (a_export a) v (a_max_workers a)
  | KwMaxWorkers v => mk_args (a_include a) (a_exclude a) (a_comparators a)
                     (a_specific_args a) (a_return_raw_diffs a) (a_export a) (a_executor a) v
  end.

Section Regex.

(** [re.compile(p)] succeeds. *)
Variable re_compiles : string -> bool.
(** [re.compile(p).match(s) is not None]. *)
Variable re_match : string -> string -> bool.

(** [_compile_patterns]: the error message of [_compile_pattern] on the
    first invalid pattern. *)
Fixpoint compile_patterns (ps : list string) : outcome (list string) :=
  match ps with
  | [] => Ret []
  | p :: ps' =>
      if re_compiles p then
        match compile_patterns ps' with
        | Ret l => Ret (p :: l)
        | Raise e => Raise e
        end
      else Raise (value_error ("Invalid regex pattern: '" ++ p ++ "'"))
  end.

Definition compile_opt_patterns (ps : option (list string)) : outcome (list string) :=
  match ps with None => Ret [] | Some l => compile_patterns l end.

(** [for pattern in patterns:] over the popped ["patterns"] value. *)
Definition iter_patterns (v : argval) : outcome (list string) :=
  match v with
  | AList l => Ret l
  | AStr s => Ret (chars s)
  | ADict d => Ret (map fst d)
  | ANone => Raise (type_error "'NoneType' object is not iterable")
  | AStrategy _ => Raise (type_error "object is not iterable")
  | AAtom r => Raise (type_error ("'" ++ r ++ "' object is not iterable"))
  end.

(** The inner loop [for pattern in patterns: pattern_specific_args[compiled] = v]. *)
Fixpoint add_group_patterns (fp : string) (i : nat) (ps : list string)
    (psa : list (string * nat)) : outcome (list (string * nat)) :=
  match ps with
  | [] => Ret psa
  | p :: ps' =>
      if re_compiles p then add_group_patterns fp i ps' (dict_set String.eqb p i psa)
      else Raise (value_error ("Error in specific_args['" ++ fp ++ "']['patterns']: "
                               ++ "Invalid regex pattern: '" ++ p ++ "'"))
  end.

(** The outer loop of [__attrs_post_init__] over [specific_args.items()]:
    a group entry has its ["patterns"] key popped from the shared inner
    dictionary. *)
Fixpoint setup_pattern_args (sa : list (string * nat)) (psa : list (string * nat))
    : M (list (string * nat)) :=
  match sa with
  | [] => ret psa
  | (fp, i) :: rest =>
      v <- get_dict i ;;
      if dict_mem String.eqb "patterns" v then
        let (pats, v') := dict_pop String.eqb "patterns" (AList []) v in
        put_dict i v' ;;;
        ps <- lift (iter_patterns pats) ;;
        psa' <- lift (add_group_patterns fp i ps psa) ;;
        setup_pattern_args rest psa'
      else setup_pattern_args rest psa
  end.

(** [ComparisonConfig( **args)]: attrs validators, then [__attrs_post_init__].
    [registry] is the process-wide [_COMPARATORS] mapping returned (copied)
    by [get_comparators()]. The validators of [comparators] and
    [specific_args] always pass on values of this model. *)
Definition make_config (registry : list (option string * strategy)) (a : config_args)
    : M config :=
  match a_export a with
  | EFStr s =>
      if is_blank s then
        raise (value_error
          "export_formatted_files must be a non-empty string when provided as string")
      else ret tt
  | EFBool _ => ret tt
  end ;;;
  inc <- lift (match compile_opt_patterns (a_include a) with
               | Ret l => Ret l
               | Raise e => Raise (value_error ("Error in include_patterns: " ++ exc_str e))
               end) ;;
  exc <- lift (match compile_opt_patterns (a_exclude a) with
               | Ret l => Ret l
               | Raise e => Raise (value_error ("Error in exclude_patterns: " ++ exc_str e))
               end) ;;
  let sa := match a_specific_args a with None => [] | Some d => d end in
  psa <- setup_pattern_args sa [] ;;
  let comps := match a_comparators a with None => registry | Some c => c end in
  ret (mk_config (a_include a) (a_exclude a) comps sa (a_return_raw_diffs a)
         (a_export a) (a_executor a) (a_max_workers a) inc exc psa).

(** The init fields of a config, as [attrs.evolve] passes them back. *)
Definition config_to_args (c : config) : config_args :=
  mk_args (include_patterns c) (exclude_patterns c) (Some (comparators c))
    (Some (specific_args c)) (return_raw_diffs c) (export_formatted_files c)
    (executor_type c) (max_workers c).

(** [attrs.evolve(config, **kwargs)]. *)
Definition evolve (registry : list (option string * strategy)) (c : config)
    (kws : list cfg_kw) : M config :=
  make_config registry (fold_left apply_kw kws (config_to_args c)).

(** [_check_config(config, **kwargs)]. *)
Definition check_config (registry : list (option string * strategy))
    (c : option config) (kws : list cfg_kw) : M config :=
  match c with
  | Some cfg => match kws with
                | [] => ret cfg
                | _ => evolve registry cfg kws
                end
  | None => make_config registry (fold_left apply_kw kws default_args)
  end.

(** [ComparisonConfig.should_ignore_file]. *)
Definition should_ignore_file (c : config) (rel : string) : bool :=
  match compiled_include_patterns c with
  | [] => existsb (fun p => re_match p rel) (compiled_exclude_patterns c)
  | incs =>
      if negb (existsb (fun p => re_match p rel) incs) then true
      else existsb (fun p => re_match p rel) (compiled_exclude_patterns c)
  end.

(** Where the override arguments of a file come from. *)
Inductive arg_source :=
| FromExact (i : nat)      (* [specific_args[rel]], the shared dict itself *)
| FromPattern (i : nat)    (* [copy.deepcopy(pattern_args)] *)
| NoArgs.                  (* [{}] *)

Fixpoint first_pattern (psa : list (string * nat)) (rel : string) : option nat :=
  match psa with
  | [] => None
  | (p, i) :: rest => if re_match p rel then Some i else first_pattern rest rel
  end.

(** The first lines of [_compare_single_file] that get [specific_file_args]. *)
Definition find_specific_args (c : config) (rel : string) : arg_source :=
  match dict_get String.eqb rel (specific_args c) with
  | Some i => FromExact i
  | None => match first_pattern (pattern_specific_args c) rel with
            | Some i => FromPattern i
            | None => NoArgs
            end
  end.

End Regex.

(** ** Comparator resolution: [pick_comparator] *)

(** [PurePath(rel).suffix]: the part of the last component from its last
    dot, when that dot is neither its first nor its last character. *)
Definition last_component (l : list ascii) : list ascii :=
  fold_left (fun acc c => if Ascii.eqb c "/"%char then [] else app acc [c]) l [].

Fixpoint rfind_from (c : ascii) (l : list ascii) (i : nat) (best : option nat)
    : option nat :=
  match l with
  | [] => best
  | x :: l' => rfind_from c l' (S i) (if Ascii.eqb x c then Some i else best)
  end.

Definition path_suffix (rel : string) : string :=
  let name := last_component (list_ascii_of_string rel) in
  match rfind_from "."%char name 0 None with
  | Some i =>
      if Nat.ltb 0 i && Nat.ltb i (length name - 1) then string_of_list_ascii (skipn i name)
      else ""
  | None => ""
  end.

(** [for i in comparators.values(): if i.__class__.__name__ == comparator]:
    only a string can equal a class name. *)
Definition pick_by_name (ov : argval) (comps : list (option string * strategy))
    : option strategy :=
  match ov with
  | AStr n => find (fun c => String.eqb (s_class c) n) (map snd comps)
  | _ => None
  end.

(** [pick_comparator(comparator, suffix, comparators)]; [registry] is the
    process-wide [_COMPARATORS], from which the default is taken. *)
Definition pick_comparator (ov : argval) (suffix : option string)
    (comps : option (list (option string * strategy)))
    (registry : list (option string * strategy)) : outcome strategy :=
  let by_mapping :=
    let comps := match comps with None => registry | Some c => c end in
    match pick_by_name ov comps with
    | Some c => Ret c
    | None =>
        match match suffix with
              | Some s => dict_get opt_str_eqb (Some s) comps
              | None => None
              end with
        | Some c => Ret c
        | None =>
            match dict_get opt_str_eqb None registry with
            | Some c => Ret c
            | None => Raise (runtime_error "No default comparator available")
            end
        end
    end in
  match ov with
  | AStrategy c => if s_base c then Ret c else by_mapping
  | _ => by_mapping
  end.

(** ** Messages: [diff_msg_formatter] *)

Definition nl : string := String (ascii_of_nat 10) EmptyString.

Definition py_repr_str (s : string) : string := "'" ++ s ++ "'".

Definition py_repr_arg (v : argval) : string :=
  match v with
  | ANone => "None"
  | AStrategy c => "<" ++ s_class c ++ " object>"
  | AStr s => py_repr_str s
  | AList l => "[" ++ String.concat ", " (map py_repr_str l) ++ "]"
  | ADict d => "{" ++ String.concat ", " (map (fun kv => py_repr_str (fst kv) ++ ": " ++ snd kv) d) ++ "}"
  | AAtom r => r
  end.

Definition py_truthy_arg (v : argval) : bool :=
  match v with
  | ANone => false
  | AStrategy _ => true
  | AStr s => negb (String.eqb s "")
  | AList l => negb (Nat.eqb (length l) 0)
  | ADict d => negb (Nat.eqb (length d) 0)
  | AAtom _ => true
  end.

(** The [reason] argument: [False], [True], [None] or a string. *)
Inductive reason_val := RFalse | RTrue | RNone | RStr (s : string).

Definition reason_truthy (r : reason_val) : bool :=
  match r with RFalse | RNone => false | RTrue => true | RStr s => negb (String.eqb s "") end.

Definition format_kwargs (kw : argval) (name : string) : string :=
  if py_truthy_arg kw then "Kwargs used for " ++ name ++ ": " ++ py_repr_arg kw ++ nl
  else "".

Definition diff_msg_formatter (ref comp : string) (reason : reason_val)
    (diff_args : list argval)
    (diff_kwargs load_kwargs format_data_kwargs filter_kwargs format_diff_kwargs
     sort_kwargs concat_kwargs report_kwargs : argval) : pyval :=
  if negb (reason_truthy reason) then VFalse else
  let reason_used := match reason with RStr s => s | _ => "" end in
  let args_used :=
    match diff_args with
    | [] => ""
    | _ => "Args used for computing differences: ["
             ++ String.concat ", " (map py_repr_arg diff_args) ++ "]" ++ nl
    end in
  let kwargs_used :=
    String.concat nl
      (filter (fun s => negb (String.eqb s ""))
         [format_kwargs load_kwargs "loading data";
          format_kwargs format_data_kwargs "formatting data";
          format_kwargs diff_kwargs "computing differences";
          format_kwargs filter_kwargs "filtering differences";
          format_kwargs format_diff_kwargs "formatting differences";
          format_kwargs sort_kwargs "sorting differences";
          format_kwargs concat_kwargs "concatenating differences";
          format_kwargs report_kwargs "reporting differences"]) in
  let eol :=
    if negb (String.eqb reason_used "") || negb (String.eqb args_used "")
       || negb (String.eqb kwargs_used "")
    then ":" ++ nl else "." in
  VStr ("The files '" ++ ref ++ "' and '" ++ comp ++ "' are different" ++ eol
        ++ args_used ++ kwargs_used ++ reason_used).

(** ** Default stage kwargs of [BaseComparator.__call__] *)

Definition kwdict := list (string * string).

(** The per-instance defaults, [default_<stage>_kwargs or {}]. *)
Record base_comparator := mk_base_comparator {
  default_load_kwargs : kwdict;
  default_format_data_kwargs : kwdict;
  default_diff_kwargs : kwdict;
  default_filter_kwargs : kwdict;
  default_format_diff_kwargs : kwdict;
  default_sort_kwargs : kwdict;
  default_concat_kwargs : kwdict;
  default_report_kwargs : kwdict
}.

Definition or_empty (o : option kwdict) : kwdict :=
  match o with Some d => d | None => [] end.

(** [BaseComparator.__init__(default_load_kwargs=..., ...)]. *)
Definition new_base_comparator (dl dfd dd df dfm ds dc dr : option kwdict)
    : base_comparator :=
  mk_base_comparator (or_empty dl) (or_empty dfd) (or_empty dd) (or_empty df)
    (or_empty dfm) (or_empty ds) (or_empty dc) (or_empty dr).

(** The stage buckets of one call: the named keyword arguments
    ([None] when not given) and the [**diff_kwargs] collected by Python. *)
Record call_kwargs := mk_call_kwargs {
  load_kwargs : option kwdict;
  format_data_kwargs : option kwdict;
  filter_kwargs : option kwdict;
  format_diff_kwargs : option kwdict;
  sort_kwargs : option kwdict;
  concat_kwargs : option kwdict;
  report_kwargs : option kwdict;
  diff_kwargs : kwdict
}.

Inductive stage := SLoad | SFormatData | SDiff | SFilter | SFormatDiff | SSort | SConcat | SReport.

(** The kwargs [__call__] passes to each stage, after its [if ... is None]
    (and, for the diff stage, [if not diff_kwargs]) fallbacks. *)
Definition stage_kwargs (b : base_comparator) (c : call_kwargs) (s : stage) : kwdict :=
  match s with
  | SLoad => match load_kwargs c with None => default_load_kwargs b | Some d => d end
  | SFormatData =>
      match format_data_kwargs c with None => default_format_data_kwargs b | Some d => d end
  | SDiff => match diff_kwargs c with [] => default_diff_kwargs b | d => d end
  | SFilter => match filter_kwargs c with None => default_filter_kwargs b | Some d => d end
  | SFormatDiff =>
      match format_diff_kwargs c with None => default_format_diff_kwargs b | Some d => d end
  | SSort => match sort_kwargs c with None => default_sort_kwargs b | Some d => d end
  | SConcat => match concat_kwargs c with None => default_concat_kwargs b | Some d => d end
  | SReport => match report_kwargs c with None => default_report_kwargs b | Some d => d end
  end.

(** ** [_split_into_chunks] *)

(** [items[i:j]]. *)
Definition py_slice {A} (l : list A) (i j : nat) : list A := firstn (j - i) (skipn i l).

(** [range(0, stop, step)] for [step > 0]. *)
Definition py_range_step (stop step : nat) : list nat :=
  map (fun k => k * step) (seq 0 ((stop + step - 1) / step)).

Definition chunk_size_of {A} (items : list A) (num_chunks : Z) : nat :=
  Nat.max 1 (length items / Z.to_nat num_chunks).

Definition split_into_chunks {A} (items : list A) (num_chunks : Z) : list (list A) :=
  if (num_chunks <=? 0)%Z then [items]
  else
    let chunk_size := chunk_size_of items num_chunks in
    map (fun i => py_slice items i (i + chunk_size)) (py_range_step (length items) chunk_size).

(** ** Sorting and joining for [assert_equal_trees] *)

(** Python's [str] order on code points (ASCII here). *)
Fixpoint str_leb (a b : string) : bool :=
  match a, b with
  | EmptyString, _ => true
  | String _ _, EmptyString => false
  | String x a', String y b' =>
      if Nat.ltb (nat_of_ascii x) (nat_of_ascii y) then true
      else if Nat.eqb (nat_of_ascii x) (nat_of_ascii y) then str_leb a' b'
      else false
  end.










(** ** The dispatch engine *)

Definition all_some {A} (l : list (option A)) : option (list A) :=
  fold_right (fun o acc => match o, acc with
                           | Some a, Some r => Some (a :: r)
                           | _, _ => None
                           end) (Some []) l.

(** [exception_args] of the handler of [compare_files]. *)
Definition exception_args (e : pyexc) : string :=
  match all_some (exc_args e) with
  | Some l => String.concat nl l
  | None => "UNKNOWN ERROR: Could not get information from the exception"
  end.

Definition exception_reason (e : pyexc) : string :=
  "Exception raised: (" ++ exc_type e ++ ") " ++ exception_args e.

(** [*comparator_args]. *)
Definition star_args (v : argval) : outcome (list argval) :=
  match v with
  | AList l => Ret (map AStr l)
  | AStr s => Ret (map AStr (chars s))
  | ADict d => Ret (map (fun kv => AStr (fst kv)) d)
  | ANone => Raise (type_error "argument after * must be an iterable, not NoneType")
  | AStrategy _ | AAtom _ => Raise (type_error "argument after * must be an iterable")
  end.

Definition formatted_suffix (e : export_flag) : string :=
  match e with
  | EFStr s => if String.eqb s "" then "_FORMATTED" else s
  | EFBool _ => "_FORMATTED"
  end.

Definition executor_eqb (a b : executor) : bool :=
  match a, b with
  | Sequential, Sequential | Thread, Thread | Process, Process => true
  | _, _ => false
  end.

(** [_collect_files_to_compare]: [entries] is the [glob("**/*")] output of
    the reference root, as (relative POSIX path, [is_dir()]). *)
Definition collect_files (re_match : string -> string -> bool) (c : config)
    (entries : list (string * bool)) : list string :=
  map fst (filter (fun e => negb (snd e) && negb (should_ignore_file re_match c (fst e)))
             entries).

Section Engine.

Variable re_compiles : string -> bool.
Variable re_match : string -> string -> bool.
(** The process-wide [_COMPARATORS] registry. *)
Variable registry : list (option string * strategy).
(** [comparator(ref_file, comp_file, *args, return_raw_diffs=raw, **kwargs)]:
    what calling a comparator does, returning or raising. *)
Variable invoke : strategy -> string -> string -> list argval -> bool -> dict -> outcome pyval.
(** [export_formatted_file(comp_file, formatted_file, comparator, **kwargs)].
    In the source both calls are methods of the same comparator object: the
    export loads and formats the compared file again with the comparator's
    own [load] and [format_data] ([export_formatted_file] below), so a world
    takes [invoke] and [export] from the same stage functions. *)
Variable export : strategy -> string -> string -> dict -> outcome unit.

(** [compare_files]: strategy exceptions become a reported difference. *)
Definition compare_files (ref comp : string) (c : strategy) (args : list argval)
    (raw : bool) (kwargs : dict) : pyval :=
  match invoke c ref comp args raw kwargs with
  | Ret v => v
  | Raise e =>
      let (ld, k1) := dict_pop String.eqb "load_kwargs" ANone kwargs in
      let (fd, k2) := dict_pop String.eqb "format_data_kwargs" ANone k1 in
      let (fl, k3) := dict_pop String.eqb "filter_kwargs" ANone k2 in
      let (fdf, k4) := dict_pop String.eqb "format_diff_kwargs" ANone k3 in
      let (so, k5) := dict_pop String.eqb "sort_kwargs" ANone k4 in
      let (co, k6) := dict_pop String.eqb "concat_kwargs" ANone k5 in
      let (rp, k7) := dict_pop String.eqb "report_kwargs" ANone k6 in
      diff_msg_formatter ref comp (RStr (exception_reason e)) args
        (ADict (map (fun kv => (fst kv, py_repr_arg (snd kv))) k7))
        ld fd fl fdf so co rp
  end.

(** [specific_file_args.pop(k, dflt)]; popping from an exact-path entry
    mutates the shared dictionary [wb]. *)
Definition pop_arg (wb : option nat) (k : string) (dflt : argval) (d : dict)
    : M (argval * dict) :=
  let (v, d') := dict_pop String.eqb k dflt d in
  match wb with
  | Some i => put_dict i d' ;;; ret (v, d')
  | None => ret (v, d')
  end.

(** [_compare_single_file]; [comp_entries] are the relative paths that
    exist under the compared root. *)
Definition compare_single_file (c : config) (ref_path comp_path fdp : string)
    (comp_entries : list string) (rel : string) : M (string * pyval) :=
  let ref_file := ref_path ++ "/" ++ rel in
  let comp_file := comp_path ++ "/" ++ rel in
  if negb (existsb (String.eqb rel) comp_entries) then
    ret (rel, VStr ("The file '" ++ rel ++ "' does not exist in '" ++ comp_path ++ "'."))
  else
    src <- match find_specific_args re_match c rel with
           | FromExact i => d <- get_dict i ;; ret (Some i, d)
           | FromPattern i => d <- get_dict i ;; ret (None, d)
           | NoArgs => ret (None, [])
           end ;;
    let (wb, d) := src in
    p1 <- pop_arg wb "comparator" ANone d ;;
    let (ov, d1) := p1 in
    comparator <- lift (pick_comparator ov (Some (path_suffix rel))
                          (Some (comparators c)) registry) ;;
    p2 <- pop_arg wb "args" (AList []) d1 ;;
    let (av, d2) := p2 in
    args <- lift (star_args av) ;;
    let result := compare_files ref_file comp_file comparator args
                    (return_raw_diffs c) d2 in
    match export_formatted_files c with
    | EFBool false => ret tt
    | _ => lift (export comparator comp_file (fdp ++ "/" ++ rel) d2)
    end ;;;
    ret (rel, result).

(** [_compare_file_chunk]: a per-file exception becomes an inline message. *)
Fixpoint compare_file_chunk (c : config) (ref_path comp_path fdp : string)
    (comp_entries : list string) (chunk : list string) : M (list (string * pyval)) :=
  match chunk with
  | [] => ret []
  | rel :: rest =>
      r <- catch (compare_single_file c ref_path comp_path fdp comp_entries rel)
                 (fun e => ret (rel, VStr ("Error comparing file: " ++ exc_str e))) ;;
      rs <- compare_file_chunk c ref_path comp_path fdp comp_entries rest ;;
      ret (r :: rs)
  end.

(** Sequential branch: [if result is not False: different_files[rel] = result]. *)
Fixpoint run_sequential (c : config) (ref_path comp_path fdp : string)
    (comp_entries : list string) (files : list string) (acc : list (string * pyval))
    : M (list (string * pyval)) :=
  match files with
  | [] => ret acc
  | rel :: rest =>
      r <- compare_single_file c ref_path comp_path fdp comp_entries rel ;;
      let v := snd r in
      run_sequential c ref_path comp_path fdp comp_entries rest
        (if is_not_False v then dict_set String.eqb rel v acc else acc)
  end.

(** Thread branch: one task per file, results read in submission order,
    [if result: different_files[relative_path] = result]. The tasks are
    run one after the other, in submission order. *)
Fixpoint run_threads (c : config) (ref_path comp_path fdp : string)
    (comp_entries : list string) (files : list string) (acc : list (string * pyval))
    : M (list (string * pyval)) :=
  match files with
  | [] => ret acc
  | rel :: rest =>
      r <- compare_single_file c ref_path comp_path fdp comp_entries rel ;;
      let (rel', v) := r in
      run_threads c ref_path comp_path fdp comp_entries rest
        (if truthy v then dict_set String.eqb rel' v acc else acc)
  end.

Definition add_truthy (rs acc : list (string * pyval)) : list (string * pyval) :=
  fold_left (fun acc r => if truthy (snd r) then dict_set String.eqb (fst r) (snd r) acc else acc)
    rs acc.

(** Process branch: every chunk runs in a worker on its own (pickled) copy
    [h0] of the heap; the parent's heap is left as it was. Failures to
    pickle the arguments or results are not modelled. *)
Fixpoint collect_chunks (c : config) (ref_path comp_path fdp : string)
    (comp_entries : list string) (h0 : heap) (chunks : list (list string))
    (acc : list (string * pyval)) : outcome (list (string * pyval)) :=
  match chunks with
  | [] => Ret acc
  | ch :: rest =>
      match fst (compare_file_chunk c ref_path comp_path fdp comp_entries ch h0) with
      | Ret rs => collect_chunks c ref_path comp_path fdp comp_entries h0 rest (add_truthy rs acc)
      | Raise e => Raise e
      end
  end.

Definition run_processes (c : config) (ref_path comp_path fdp : string)
    (comp_entries : list string) (chunks : list (list string))
    : M (list (string * pyval)) :=
  fun h0 =>
    (collect_chunks c ref_path comp_path fdp comp_entries h0
       (filter (fun ch => negb (Nat.eqb (length ch) 0)) chunks) [], h0).

Definition cpu_or_1 (n : option nat) : nat :=
  match n with Some (S k) => S k | _ => 1 end.

(** [compare_trees(ref_path, comp_path, config=cfg0, **kws)]; [cpu] is
    [os.cpu_count()]. [comp_path.with_name(comp_path.name + suffix)] is
    written as the concatenation, which it is when [comp_path] has a name
    and the suffix holds no [/]; the [ValueError] it raises otherwise is not
    modelled. *)
Definition compare_trees (cfg0 : option config) (kws : list cfg_kw)
    (ref_path comp_path : string) (ref_entries : list (string * bool))
    (comp_entries : list string) (cpu : option nat) : M (list (string * pyval)) :=
  c <- check_config re_compiles registry cfg0 kws ;;
  let fdp := comp_path ++ formatted_suffix (export_formatted_files c) in
  let files := collect_files re_match c ref_entries in
  if negb (executor_eqb (executor_type c) Sequential) && Nat.ltb 1 (length files) then
    let w := match max_workers c with
             | Some w => w
             | None => Z.min 32 (Z.of_nat (cpu_or_1 cpu) + 4)
             end in
    if (w <=? 0)%Z then raise (value_error "max_workers must be greater than 0")
    else match executor_type c with
         | Process => run_processes c ref_path comp_path fdp comp_entries
                        (split_into_chunks files w)
         | _ => run_threads c ref_path comp_path fdp comp_entries files []
         end
  else run_sequential c ref_path comp_path fdp comp_entries files [].


End Engine.

(** ** [export_formatted_file] and the loading steps of a comparator call *)

Section ExportFormatted.
Context {D : Type}.
(** The comparator's [load], [format_data] and [save], each given the
    kwargs bucket it is called with. *)
Variable load : string -> argval -> outcome D.
Variable format_data : D -> argval -> outcome D.
Variable save : D -> string -> argval -> outcome unit.
(** [comparator._default_load_kwargs] and the like. *)
Variables default_load default_format_data default_save : argval.




End ExportFormatted.

(** ** The comparator registry ([registry.py], [util.format_ext]) *)

(** What [.*] matches: the characters before the first newline. *)
Fixpoint take_line (s : string) : string :=
  match s with
  | EmptyString => EmptyString
  | String c s' => if Ascii.eqb c (ascii_of_nat 10) then EmptyString else String c (take_line s')
  end.

(** [format_ext]: a dot, then [group(1)] of [re.match] of the module's
    [_ext_pattern] on [ext]: an optional leading dot is skipped and the
    group takes what follows, up to the first newline. *)
Definition format_ext (ext : string) : string :=
  "." ++ take_line (match ext with
                    | String c s => if Ascii.eqb c "."%char then s else ext
                    | EmptyString => ext
                    end).

Definition comparator_registry := list (option string * strategy).

(** [register_comparator(ext, comparator, force)] on [_COMPARATORS]. *)
Definition register_comparator (ext : string) (comparator : strategy) (force : bool)
    (reg : comparator_registry) : outcome comparator_registry :=
  let ext := format_ext ext in
  if negb force && dict_mem opt_str_eqb (Some ext) reg then
    Raise (value_error ("The '" ++ ext ++ "' extension is already registered and must be "
                        ++ "unregistered before being replaced."))
  else Ret (dict_set opt_str_eqb (Some ext) comparator reg).

(** [unregister_comparator(ext, quiet)]: the popped comparator ([None] if
    absent) and the registry left. *)
Definition unregister_comparator (ext : string) (quiet : bool) (reg : comparator_registry)
    : outcome (option strategy * comparator_registry) :=
  let ext := format_ext ext in
  if negb quiet && negb (dict_mem opt_str_eqb (Some ext) reg) then
    Raise (value_error ("The '" ++ ext ++ "' extension is not registered."))
  else
    match dict_get opt_str_eqb (Some ext) reg with
    | Some v => Ret (Some v, dict_remove opt_str_eqb (Some ext) reg)
    | None => Ret (None, reg)
    end.

(** ** [BaseComparator.__call__] *)

Fixpoint insert_str (x : string) (l : list string) : list string :=
  match l with
  | [] => [x]
  | y :: l' => if str_leb x y then x :: l else y :: insert_str x l'
  end.

(** [BaseComparator.sort]: [sorted(differences)] on a list of [str]. *)
Fixpoint sorted_strs (l : list string) : list string :=
  match l with
  | [] => []
  | x :: l' => insert_str x (sorted_strs l')
  end.

(** What a [diff] returns: a boolean, or an iterable of differences (here
    ones that [format_diff] turns into [str], as the default [sort] and
    [concatenate] need). *)
Inductive diff_out := DBool (b : bool) | DSeq (l : list string).

(** [BaseComparator.load] and [BaseComparator.format_data]. *)
Definition base_load (path : string) (kw : kwdict) : string := path.
Definition base_format_data (data ref : string) (kw : kwdict) : string := data.
(** [BaseComparator.filter] and [BaseComparator.format_diff]. *)
Definition base_filter (l : list string) (kw : kwdict) : list string := l.
Definition base_format_diff (d : string) (kw : kwdict) : string := d.

Section BaseCall.
Context {D : Type}.
(** The stages a subclass may override; [sort], [concatenate] and
    [report] are the ones of [BaseComparator]. *)
Variable load : string -> kwdict -> D.
Variable format_data : D -> D -> kwdict -> D.
Variable diff : D -> D -> list argval -> kwdict -> diff_out.
Variable filter_stage : list string -> kwdict -> list string.
Variable format_diff : string -> kwdict -> string.

(** [comparator(ref_file, comp_file, *diff_args, return_raw_diffs=raw, ...)]:
    the raw diffs ([inl]) or the report ([inr]). *)
Definition base_call (b : base_comparator) (ref_file comp_file : string)
    (diff_args : list argval) (raw : bool) (ck : call_kwargs) : diff_out + pyval :=
  let lk := stage_kwargs b ck SLoad in
  let fdk := stage_kwargs b ck SFormatData in
  let dk := stage_kwargs b ck SDiff in
  let flk := stage_kwargs b ck SFilter in
  let fmk := stage_kwargs b ck SFormatDiff in
  let sk := stage_kwargs b ck SSort in
  let ck' := stage_kwargs b ck SConcat in
  let rk := stage_kwargs b ck SReport in
  let ref := load ref_file lk in
  let comp := load comp_file lk in
  let formatted_comp := format_data comp ref fdk in
  let diffs := diff ref formatted_comp diff_args dk in
  if raw then inl diffs else
  let formatted_diffs :=
    match diffs with
    | DBool false | DSeq [] => RFalse
    | DBool true => RTrue
    | DSeq l =>
        RStr (String.concat nl (sorted_strs (map (fun i => format_diff i fmk)
                                                 (filter_stage l flk))))
    end in
  inr (diff_msg_formatter ref_file comp_file formatted_diffs diff_args (ADict dk)
         (ADict lk) (ADict fdk) (ADict flk) (ADict fmk) (ADict sk) (ADict ck') (ADict rk)).

End BaseCall.

(** [DefaultComparator]: [diff] is [not filecmp.cmp(ref, comp)]. *)
Definition default_comparator_call (filecmp_cmp : string -> string -> bool)
    (b : base_comparator) (ref_file comp_file : string) (diff_args : list argval)
    (raw : bool) (ck : call_kwargs) : diff_out + pyval :=
  base_call base_load base_format_data
    (fun ref comp _ _ => DBool (negb (filecmp_cmp ref comp))) base_filter base_format_diff
    b ref_file comp_file diff_args raw ck.

(** A call without stage keyword arguments. *)
Definition no_kwargs : call_kwargs := mk_call_kwargs None None None None None None None [].

(** ** [DictComparator.format_diff] and [DictComparator._format_key] *)

(** [key.split(".")]. *)
Fixpoint split_dot (s : string) : list string :=
  match s with
  | EmptyString => [""]
  | String c s' =>
      let r := split_dot s' in
      if Ascii.eqb c "."%char then "" :: r
      else match r with
           | x :: r' => String c x :: r'
           | [] => [String c EmptyString]
           end
  end.

(** A difference key: a dotted [str] or a list of [str] components. *)
Inductive dkey := KStr (s : string) | KList (l : list string).

(** [_format_key]. *)
Definition format_key (key : dkey) : string :=
  let ks := match key with KStr s => split_dot s | KList l => l end in
  let ks := match ks with [EmptyString] => [] | _ => ks end in
  String.concat "" (map (fun k => "[" ++ k ++ "]") ks).

(** The pieces of a [str.format] template. *)
Inductive piece := PLit (s : string) | PKey | PValue | PValueIdx (n : nat).

(** [DictComparator._ACTION_MAPPING], its templates cut at the fields. *)
Definition action_mapping : list (string * list piece) :=
  [("add", [PLit "Added the value(s) '"; PValue; PLit "' in the '"; PKey; PLit "' key."]);
   ("change", [PLit "Changed the value of '"; PKey; PLit "' from "; PValueIdx 0;
               PLit " to "; PValueIdx 1; PLit "."]);
   ("remove", [PLit "Removed the value(s) '"; PValue; PLit "' from '"; PKey; PLit "' key."]);
   ("missing_ref_entry",
      [PLit "The path '"; PKey; PLit ("' is missing in the reference dictionary, please fix the "
                                      ++ "'replace_pattern' argument.")]);
   ("missing_comp_entry",
      [PLit "The path '"; PKey; PLit ("' is missing in the compared dictionary, please fix the "
                                      ++ "'replace_pattern' argument.")])].

(** The [value] field: a [str] (from [json.dumps]) or a list of [str]. *)
Inductive fmt_arg := FStr (s : string) | FList (l : list string).

Definition key_error_of (k : string) : pyexc := mk_exc "KeyError" [Some k] (py_repr_str k).
Definition index_error : pyexc :=
  mk_exc "IndexError" [Some "list index out of range"] "list index out of range".

Definition fmt_field (v : fmt_arg) : string :=
  match v with
  | FStr s => s
  | FList l => "[" ++ String.concat ", " (map py_repr_str l) ++ "]"
  end.

(** [template.format(key=k, value=v)]. *)
Fixpoint render (t : list piece) (k : string) (v : fmt_arg) : outcome string :=
  match t with
  | [] => Ret ""
  | p :: t' =>
      let here := match p with
                  | PLit s => Ret s
                  | PKey => Ret k
                  | PValue => Ret (fmt_field v)
                  | PValueIdx n =>
                      match v with
                      | FStr s => match String.get n s with
                                  | Some c => Ret (String c EmptyString)
                                  | None => Raise (mk_exc "IndexError" [Some "string index out of range"]
                                                          "string index out of range")
                                  end
                      | FList l => match nth_error l n with
                                   | Some x => Ret x
                                   | None => Raise index_error
                                   end
                      end
                  end in
      match here with
      | Raise e => Raise e
      | Ret s => match render t' k v with Ret r => Ret (s ++ r) | Raise e => Raise e end
      end
  end.

Section DictFormat.
(** The value of a difference, and what [_format_add_value] and
    [_format_remove_value] ([json.dumps(dict(sorted(value)))]) and
    [_format_change_value] make of it. *)
Context {V : Type}.
Variable format_add_value format_remove_value : V -> string.
Variable format_change_value : V -> list string.

(** [self._format_mapping]. *)
Definition format_mapping : list (string * (V -> fmt_arg)) :=
  [("add", fun v => FStr (format_add_value v));
   ("remove", fun v => FStr (format_remove_value v));
   ("change", fun v => FList (format_change_value v))].

(** [DictComparator.format_diff((action, key, value))]: the template is
    looked up, then the key formatted, then the value formatter looked up
    and applied, then the template filled. *)
Definition dict_format_diff (action : string) (key : dkey) (value : V) : outcome string :=
  match dict_get String.eqb action action_mapping with
  | None => Raise (key_error_of action)
  | Some tmpl =>
      let k := format_key key in
      match dict_get String.eqb action format_mapping with
      | None => Raise (key_error_of action)
      | Some f => render tmpl k (f value)
      end
  end.

End DictFormat.

(** ** [XmlComparator._cast_from_attribute] *)

(** [str.lower] on ASCII. *)
Definition ascii_lower (c : ascii) : ascii :=
  let n := nat_of_ascii c in
  if Nat.leb 65 n && Nat.leb n 90 then ascii_of_nat (n + 32) else c.

Fixpoint str_lower (s : string) : string :=
  match s with
  | EmptyString => EmptyString
  | String c s' => String (ascii_lower c) (str_lower s')
  end.

(** [str(text)] for an element text, [None] when the element has none. *)
Definition py_str_text (text : option string) : string :=
  match text with Some s => s | None => "None" end.

Section XmlCast.
Context {F : Type}.
(** [int(text)] and [float(text)]. *)
Variable py_int : option string -> outcome Z.
Variable py_float : option string -> outcome F.

Inductive xml_value :=
| XText (t : option string)   (* the text itself, [None] included *)
| XStrV (s : string)
| XIntV (z : Z)
| XFloatV (f : F)
| XBoolV (b : bool)
| XListV                      (* [[]] *)
| XDictV                      (* [{}] *)
| XNullV.                     (* [None] *)

Definition bool_attr_error : pyexc := value_error "Bool attributes expect 'true' or 'false'.".

Definition cast_from_attribute (text : option string) (attr : list (string * string))
    : outcome xml_value :=
  if negb (dict_mem String.eqb "type" attr) then Ret (XText text) else
  let value_type := str_lower (match dict_get String.eqb "type" attr with
                               | Some v => v
                               | None => ""
                               end) in
  if String.eqb value_type "str" then Ret (XStrV (py_str_text text))
  else if String.eqb value_type "int" then
    match py_int text with Ret z => Ret (XIntV z) | Raise e => Raise e end
  else if String.eqb value_type "float" then
    match py_float text with Ret f => Ret (XFloatV f) | Raise e => Raise e end
  else if String.eqb value_type "bool" then
    if String.eqb (str_lower (py_str_text text)) "true" then Ret (XBoolV true)
    else if String.eqb (str_lower (py_str_text text)) "false" then Ret (XBoolV false)
    else Raise bool_attr_error
  else if String.eqb value_type "list" then Ret XListV
  else if String.eqb value_type "dict" then Ret XDictV
  else if String.eqb value_type "null" then Ret XNullV
  else Raise (type_error ("Unsupported type. "
                          ++ "Only 'str', 'int', 'float', 'bool', 'list', 'dict', and 'null' "
                          ++ "are supported.")).

End XmlCast.

(** ** A concrete world, for running the model *)

(** Regular expressions that are literal prefixes, as [re.match] on a
    pattern without metacharacters; every pattern compiles. *)
Definition literal_match (p s : string) : bool := String.prefix p s.
Definition all_compile (_ : string) : bool := true.

Definition default_strategy : strategy := mk_strategy "DefaultComparator" true 0.
Definition json_strategy : strategy := mk_strategy "JsonComparator" true 1.
Definition std_registry : list (option string * strategy) :=
  [(None, default_strategy); (Some ".json", json_strategy)].
(** A registry in which the default has been unregistered. *)
Definition no_default_registry : list (option string * strategy) :=
  [(Some ".json", json_strategy)].

(** Comparators on identical files: [False], or the raw diff [[]]. *)
Definition invoke_equal (c : strategy) (ref comp : string) (args : list argval)
    (raw : bool) (kw : dict) : outcome pyval :=
  if raw then Ret (VRaw 0) else Ret VFalse.

(** Comparators on files that all differ. *)
Definition invoke_differ (c : strategy) (ref comp : string) (args : list argval)
    (raw : bool) (kw : dict) : outcome pyval :=
  if raw then Ret (VRaw 1) else Ret (VStr ("diff of " ++ ref)).


Definition export_noop (c : strategy) (comp formatted : string) (kw : dict) : outcome unit :=
  Ret tt.


Definition empty_heap : heap := fun _ => [].

(** * Properties *)

(** ** Chunking of the process mode *)

Section Chunking.
Context {A : Type}.

(** The chunks [items[k*cs : k*cs+cs]] for [k < m], by recursion on [m]. *)
Fixpoint chunks_rec (cs : nat) (l : list A) (m : nat) : list (list A) :=
  match m with
  | 0 => []
  | S m' => firstn cs l :: chunks_rec cs (skipn cs l) m'
  end.

Lemma chunks_map_rec (cs : nat) (l : list A) (m : nat) :
  map (fun k => firstn cs (skipn (k * cs) l)) (seq 0 m) = chunks_rec cs l m.
Proof.
  revert l; induction m as [|m IH]; intro l; [reflexivity|].
  cbn [seq map chunks_rec]. rewrite Nat.mul_0_l; cbn [skipn]. f_equal.
  rewrite <- seq_shift, map_map, <- IH. apply map_ext. intro k.
  rewrite skipn_skipn. do 2 f_equal. lia.
Qed.

Lemma split_into_chunks_rec (items : list A) (n : Z) :
  (0 < n)%Z ->
  split_into_chunks items n =
  chunks_rec (chunk_size_of items n) items
    ((length items + chunk_size_of items n - 1) / chunk_size_of items n).
Proof.
  intro Hn. unfold split_into_chunks.
  replace (n <=? 0)%Z with false by (symmetry; apply Z.leb_gt; lia).
  unfold py_range_step. rewrite map_map, <- chunks_map_rec.
  apply map_ext. intro k. unfold py_slice. f_equal. lia.
Qed.

Lemma chunks_rec_concat (cs : nat) (l : list A) (m : nat) :
  length l <= m * cs -> concat (chunks_rec cs l m) = l.
Proof.
  revert l; induction m as [|m IH]; intros l Hl.
  - destruct l; [reflexivity | simpl in Hl; lia].
  - cbn [chunks_rec concat]. rewrite IH.
    + apply firstn_skipn.
    + rewrite length_skipn. simpl in Hl. lia.
Qed.

Lemma chunks_rec_length (cs : nat) (l : list A) (m : nat) :
  length (chunks_rec cs l m) = m.
Proof. revert l; induction m; intro l; simpl; auto. Qed.

Lemma chunks_rec_bounded (cs : nat) (l : list A) (m : nat) :
  Forall (fun ch => length ch <= cs) (chunks_rec cs l m).
Proof.
  revert l; induction m as [|m IH]; intro l; constructor; auto.
  rewrite length_firstn. lia.
Qed.

Lemma chunks_rec_nonempty (cs : nat) (l : list A) (m : nat) :
  0 < cs -> m * cs < length l + cs ->
  Forall (fun ch => ch <> []) (chunks_rec cs l m).
Proof.
  intro Hcs. revert l; induction m as [|m IH]; intros l Hl; constructor.
  - destruct l as [|x l]; [simpl in Hl; nia|].
    destruct cs; [lia|]. discriminate.
  - apply IH. rewrite length_skipn. simpl in Hl. nia.
Qed.

Lemma chunks_rec_full (cs : nat) (l : list A) (m : nat) :
  m * cs < length l + cs ->
  Forall (fun ch => length ch = cs) (removelast (chunks_rec cs l m)).
Proof.
  revert l; induction m as [|m IH]; intros l Hl; [constructor|].
  destruct m as [|m]; [constructor|].
  change (removelast (chunks_rec cs l (S (S m))))
    with (firstn cs l :: removelast (chunks_rec cs (skipn cs l) (S m))).
  constructor.
  - rewrite length_firstn. simpl in Hl. lia.
  - apply IH. rewrite length_skipn. simpl in Hl |- *. nia.
Qed.

Lemma ceil_div_bounds (len cs : nat) :
  0 < cs ->
  len <= ((len + cs - 1) / cs) * cs /\ ((len + cs - 1) / cs) * cs < len + cs.
Proof.
  intro Hcs.
  pose proof (Nat.div_mod (len + cs - 1) cs ltac:(lia)) as Hdm.
  pose proof (Nat.mod_upper_bound (len + cs - 1) cs ltac:(lia)) as Hmod.
  remember ((len + cs - 1) / cs) as q. remember ((len + cs - 1) mod cs) as r.
  split; nia.
Qed.

End Chunking.

(** C5 (amended): for every list of files and every positive worker count
    [n], [_split_into_chunks] returns contiguous chunks whose concatenation
    is the input; with [cs = max(1, len // n)] every chunk is non-empty,
    every chunk but the last holds exactly [cs] files, the last at most
    [cs], and there are [ceil(len / cs)] chunks: the files left over after
    the even division form chunks of their own, so there can be more chunks
    than workers. *)
Theorem split_into_chunks_partition {A : Type} (items : list A) (n : Z) :
  (0 < n)%Z ->
  concat (split_into_chunks items n) = items /\
  Forall (fun ch => ch <> []) (split_into_chunks items n) /\
  Forall (fun ch => length ch = chunk_size_of items n)
    (removelast (split_into_chunks items n)) /\
  Forall (fun ch => length ch <= chunk_size_of items n) (split_into_chunks items n) /\
  length (split_into_chunks items n) =
    (length items + chunk_size_of items n - 1) / chunk_size_of items n.
Proof.
  intro Hn. rewrite (split_into_chunks_rec items n Hn).
  assert (Hcs : 0 < chunk_size_of items n) by (unfold chunk_size_of; lia).
  destruct (ceil_div_bounds (length items) (chunk_size_of items n) Hcs) as [Hlo Hhi].
  repeat split.
  - apply chunks_rec_concat. exact Hlo.
  - apply chunks_rec_nonempty; assumption.
  - apply chunks_rec_full. exact Hhi.
  - apply chunks_rec_bounded.
  - apply chunks_rec_length.
Qed.

Lemma split_into_chunks_partition_witness :
  (0 < 2)%Z /\
  concat (split_into_chunks [1; 2; 3; 4; 5] 2) = [1; 2; 3; 4; 5].
Proof.
  split; [lia|].
  exact (proj1 (split_into_chunks_partition [1; 2; 3; 4; 5] 2 ltac:(lia))).
Defined.

(** C5 (counterexample): five files over two workers give three chunks;
    the fifth file is not folded into the last chunk of two but forms a
    third chunk. *)
Lemma split_into_chunks_remainder_extra_chunk :
  split_into_chunks [1; 2; 3; 4; 5] 2 = [[1; 2]; [3; 4]; [5]] /\
  2 < length (split_into_chunks [1; 2; 3; 4; 5] 2%Z).
Proof. split; vm_compute; [reflexivity | lia]. Qed.

(** ** Default stage kwargs *)

(** The named bucket of a stage other than diff, and its default. *)
Definition named_bucket (c : call_kwargs) (s : stage) : option kwdict :=
  match s with
  | SLoad => load_kwargs c
  | SFormatData => format_data_kwargs c
  | SDiff => None
  | SFilter => filter_kwargs c
  | SFormatDiff => format_diff_kwargs c
  | SSort => sort_kwargs c
  | SConcat => concat_kwargs c
  | SReport => report_kwargs c
  end.

Definition stage_default (b : base_comparator) (s : stage) : kwdict :=
  match s with
  | SLoad => default_load_kwargs b
  | SFormatData => default_format_data_kwargs b
  | SDiff => default_diff_kwargs b
  | SFilter => default_filter_kwargs b
  | SFormatDiff => default_format_diff_kwargs b
  | SSort => default_sort_kwargs b
  | SConcat => default_concat_kwargs b
  | SReport => default_report_kwargs b
  end.

(** The bucket the amended resolution rule gives a stage: the one supplied
    for it at call time, or [default_<stage>_kwargs] when none is supplied;
    for the diff stage, whose kwargs arrive as [**diff_kwargs], an empty
    bucket counts as not supplied. *)
Definition amended_bucket (b : base_comparator) (c : call_kwargs) (s : stage) : kwdict :=
  match s with
  | SDiff => match diff_kwargs c with [] => default_diff_kwargs b | d => d end
  | _ => match named_bucket c s with None => stage_default b s | Some d => d end
  end.

Definition tolerant_comparator : base_comparator :=
  new_base_comparator None None (Some [("tolerance", "0.1")]) None None None None None.

Definition empty_call : call_kwargs :=
  mk_call_kwargs (Some []) (Some []) (Some []) (Some []) (Some []) (Some []) (Some []) [].

(** Stage functions that return the kwargs they are given (a [diff] that
    lists the keys of the load and diff kwargs it sees). *)
Definition echo_load (path : string) (kw : kwdict) : kwdict := kw.
Definition echo_format_data (comp ref : kwdict) (kw : kwdict) : kwdict := comp.
Definition echo_diff (ref comp : kwdict) (args : list argval) (kw : kwdict) : diff_out :=
  DSeq (map fst (ref ++ kw)).

(** C9 (amended): for the load, format_data, filter, format_diff, sort,
    concat and report stages, a bucket not supplied ([None]) falls back to
    the instance default [default_<stage>_kwargs], and a supplied bucket,
    the empty dict included, is used as given; the diff stage takes its
    kwargs as [**diff_kwargs]: whenever they are empty it runs with
    [default_diff_kwargs], and only non-empty diff kwargs override it.
    [BaseComparator.__call__] runs every stage with that bucket: [load] on
    both files, [format_data], [diff], then [filter] and [format_diff] on
    the differences, and the sort, concat and report buckets go to
    [report]. *)
Theorem stage_kwargs_resolution {D : Type} (load : string -> kwdict -> D)
    (format_data : D -> D -> kwdict -> D) (diff : D -> D -> list argval -> kwdict -> diff_out)
    (filter_stage : list string -> kwdict -> list string)
    (format_diff : string -> kwdict -> string)
    (b : base_comparator) (c : call_kwargs) (ref_file comp_file : string)
    (diff_args : list argval) :
  (forall s, s <> SDiff -> named_bucket c s = None -> amended_bucket b c s = stage_default b s) /\
  (forall s d, s <> SDiff -> named_bucket c s = Some d -> amended_bucket b c s = d) /\
  (diff_kwargs c = [] -> amended_bucket b c SDiff = default_diff_kwargs b) /\
  (diff_kwargs c <> [] -> amended_bucket b c SDiff = diff_kwargs c) /\
  let K := amended_bucket b c in
  let ref := load ref_file (K SLoad) in
  let comp := load comp_file (K SLoad) in
  let diffs := diff ref (format_data comp ref (K SFormatData)) diff_args (K SDiff) in
  base_call load format_data diff filter_stage format_diff b ref_file comp_file diff_args
    true c = inl diffs /\
  base_call load format_data diff filter_stage format_diff b ref_file comp_file diff_args
    false c =
  inr (diff_msg_formatter ref_file comp_file
         match diffs with
         | DBool false | DSeq [] => RFalse
         | DBool true => RTrue
         | DSeq l =>
             RStr (String.concat nl (sorted_strs
                     (map (fun i => format_diff i (K SFormatDiff)) (filter_stage l (K SFilter)))))
         end
         diff_args (ADict (K SDiff)) (ADict (K SLoad)) (ADict (K SFormatData))
         (ADict (K SFilter)) (ADict (K SFormatDiff)) (ADict (K SSort)) (ADict (K SConcat))
         (ADict (K SReport))).
Proof.
  assert (HK : forall s, stage_kwargs b c s = amended_bucket b c s) by (destruct s; reflexivity).
  split; [|split; [|split; [|split]]].
  - intros s Hs Hn; destruct s; simpl in *; try rewrite Hn; congruence.
  - intros s d Hs Hn; destruct s; simpl in *; try rewrite Hn; congruence.
  - intro H; simpl; rewrite H; reflexivity.
  - intro H; simpl; destruct (diff_kwargs c); [congruence | reflexivity].
  - cbv zeta. unfold base_call. rewrite !HK. split; reflexivity.
Qed.

Lemma stage_kwargs_resolution_witness :
  base_call echo_load echo_format_data echo_diff base_filter base_format_diff
    tolerant_comparator "ref/a.json" "comp/a.json" [] true empty_call
  = inl (echo_diff (echo_load "ref/a.json" []) (echo_load "comp/a.json" []) []
           [("tolerance", "0.1")]).
Proof.
  destruct (stage_kwargs_resolution echo_load echo_format_data echo_diff base_filter
              base_format_diff tolerant_comparator empty_call "ref/a.json" "comp/a.json" [])
    as [_ [H2 [H3 [_ [Hraw _]]]]].
  rewrite Hraw. rewrite (H2 SLoad [] ltac:(discriminate) eq_refl).
  rewrite (H3 eq_refl). reflexivity.
Defined.

(** C9 (counterexample): a comparator built with
    [default_diff_kwargs={"tolerance": 0.1}] and called with empty diff
    kwargs (the explicit [**{}]) runs its diff stage with the default, not
    with no kwargs. *)
Lemma diff_stage_empty_kwargs_use_default :
  diff_kwargs empty_call = [] /\
  base_call echo_load echo_format_data echo_diff base_filter base_format_diff
    tolerant_comparator "ref/a.json" "comp/a.json" [] true empty_call = inl (DSeq ["tolerance"]) /\
  base_call echo_load echo_format_data echo_diff base_filter base_format_diff
    tolerant_comparator "ref/a.json" "comp/a.json" [] true empty_call <>
  inl (echo_diff [] [] [] []).
Proof.
  split; [reflexivity|]. split; [reflexivity|]. vm_compute. discriminate.
Qed.

(** ** The assertion facade *)

Lemma str_leb_total (a b : string) : str_leb a b = false -> str_leb b a = true.
Proof.
  revert b; induction a as [|x a IH]; intros b H; [discriminate|].
  destruct b as [|y b]; [reflexivity|]. simpl in *.
  destruct (Nat.ltb_spec (nat_of_ascii x) (nat_of_ascii y)); [discriminate|].
  destruct (Nat.eqb_spec (nat_of_ascii x) (nat_of_ascii y)).
  - rewrite e, Nat.ltb_irrefl, Nat.eqb_refl. auto.
  - destruct (Nat.ltb_spec (nat_of_ascii y) (nat_of_ascii x)); [reflexivity | lia].
Qed.












(** ** Comparator resolution *)

(** [isinstance(comparator, BaseComparator)]. *)
Definition instance_of (ov : argval) : option strategy :=
  match ov with
  | AStrategy c => if s_base c then Some c else None
  | _ => None
  end.

Fixpoint first_some {A} (l : list (option A)) : option A :=
  match l with
  | [] => None
  | Some a :: _ => Some a
  | None :: rest => first_some rest
  end.

(** The resolution order of [pick_comparator] as [_compare_single_file]
    calls it (a suffix and the config's mapping both given): an instance
    override, then a class-name match in the mapping, then the suffix
    entry of the mapping, then the default of the process-wide registry,
    and otherwise [RuntimeError]. *)
Theorem pick_comparator_resolution_order (ov : argval) (sfx : string)
    (comps registry : list (option string * strategy)) :
  pick_comparator ov (Some sfx) (Some comps) registry =
  match first_some [instance_of ov; pick_by_name ov comps;
                    dict_get opt_str_eqb (Some sfx) comps;
                    dict_get opt_str_eqb None registry] with
  | Some c => Ret c
  | None => Raise (runtime_error "No default comparator available")
  end.
Proof.
  unfold pick_comparator, instance_of.
  destruct ov; simpl;
    repeat match goal with
           | |- context [if ?b then _ else _] => destruct b
           | |- context [match ?x with Some _ => _ | None => _ end] => destruct x
           end; reflexivity.
Qed.

(** C3 (divergence): with the default unregistered from the process-wide
    registry and two [.txt] files, the sequential and thread modes raise
    [RuntimeError], while the process mode records the error as a
    difference of each file. *)
Lemma resolution_error_reported_in_process_mode :
  compare_trees all_compile literal_match no_default_registry invoke_differ export_noop None
    [KwExecutor Sequential] "ref" "comp" [("a.txt", false); ("b.txt", false)]
    ["a.txt"; "b.txt"] None empty_heap
  = (Raise (runtime_error "No default comparator available"), empty_heap) /\
  compare_trees all_compile literal_match no_default_registry invoke_differ export_noop None
    [KwExecutor Thread; KwMaxWorkers (Some 2%Z)] "ref" "comp"
    [("a.txt", false); ("b.txt", false)] ["a.txt"; "b.txt"] None empty_heap
  = (Raise (runtime_error "No default comparator available"), empty_heap) /\
  compare_trees all_compile literal_match no_default_registry invoke_differ export_noop None
    [KwExecutor Process; KwMaxWorkers (Some 2%Z)] "ref" "comp"
    [("a.txt", false); ("b.txt", false)] ["a.txt"; "b.txt"] None empty_heap
  = (Ret [("a.txt", VStr "Error comparing file: No default comparator available");
          ("b.txt", VStr "Error comparing file: No default comparator available")],
     empty_heap).
Proof. split; [|split]; reflexivity. Qed.

(** ** Override arguments *)

(** Two groups sharing the pattern ["a"], declared [g1] then [g2]. *)
Definition dup_pattern_heap : heap := fun i =>
  match i with
  | 1 => [("patterns", AList ["a"]); ("args", AList ["first"])]
  | 2 => [("patterns", AList ["a"]); ("args", AList ["second"])]
  | _ => []
  end.

(** A comparator reporting the positional arguments it was given. *)
Definition invoke_echo (c : strategy) (ref comp : string) (args : list argval)
    (raw : bool) (kw : dict) : outcome pyval :=
  Ret (VStr (String.concat "," (map py_repr_arg args))).

(** C4 (divergence): both groups match ["a.txt"], but
    [pattern_specific_args[re.compile("a")]] is assigned twice and keeps
    the arguments of the second group, which the comparison then uses. *)
Lemma duplicate_pattern_last_group_wins :
  (exists c h', make_config all_compile std_registry
                  (mk_args None None None (Some [("g1", 1); ("g2", 2)]) false
                     (EFBool false) Sequential None) dup_pattern_heap = (Ret c, h') /\
                find_specific_args literal_match c "a.txt" = FromPattern 2) /\
  fst (compare_trees all_compile literal_match std_registry invoke_echo export_noop None
         [KwSpecificArgs (Some [("g1", 1); ("g2", 2)])] "ref" "comp"
         [("a.txt", false)] ["a.txt"] None dup_pattern_heap)
  = Ret [("a.txt", VStr "'second'")].
Proof.
  split; [|reflexivity].
  eexists _, _. split; [cbv; reflexivity | cbv; reflexivity].
Qed.

(** ** In-place pop of the ["patterns"] key *)

Lemma dict_remove_idem (k : string) (d : dict) :
  dict_remove String.eqb k (dict_remove String.eqb k d) = dict_remove String.eqb k d.
Proof.
  unfold dict_remove. induction d as [|[k' v] d IH]; simpl; [reflexivity|].
  destruct (String.eqb k k') eqn:E; simpl; [exact IH|].
  rewrite E. simpl. f_equal. exact IH.
Qed.

Lemma dict_remove_absent (k : string) (d : dict) :
  dict_mem String.eqb k d = false -> dict_remove String.eqb k d = d.
Proof.
  unfold dict_mem, dict_remove. induction d as [|[k' v] d IH]; simpl; [reflexivity|].
  destruct (String.eqb k k') eqn:E; [discriminate|].
  simpl. intro H. f_equal. exact (IH H).
Qed.

Lemma dict_mem_remove (k : string) (d : dict) :
  dict_mem String.eqb k (dict_remove String.eqb k d) = false.
Proof.
  unfold dict_mem, dict_remove. induction d as [|[k' v] d IH]; simpl; [reflexivity|].
  destruct (String.eqb k k') eqn:E; simpl; [exact IH|].
  rewrite E. exact IH.
Qed.

(** Whether a key of [sa] refers to the inner dictionary [j]. *)
Definition refers_to (sa : list (string * nat)) (j : nat) : bool :=
  existsb (fun p => Nat.eqb (snd p) j) sa.

(** A successful loop leaves every inner dictionary it visited without its
    ["patterns"] key, and every other one as it was. *)
Lemma setup_pattern_args_heap (rc : string -> bool) (sa : list (string * nat)) :
  forall psa h psa' h',
  setup_pattern_args rc sa psa h = (Ret psa', h') ->
  forall j, h' j = if refers_to sa j then dict_remove String.eqb "patterns" (h j) else h j.
Proof.
  induction sa as [|[fp i] rest IH]; intros psa h psa' h' Hrun j.
  - simpl in Hrun. inversion Hrun; subst. reflexivity.
  - simpl in Hrun. unfold bind, get_dict in Hrun.
    destruct (dict_mem String.eqb "patterns" (h i)) eqn:Em.
    + unfold dict_pop in Hrun. unfold dict_mem in Em.
      destruct (dict_get String.eqb "patterns" (h i)) as [pats|] eqn:Eg; [|discriminate].
      unfold put_dict, lift in Hrun.
      destruct (iter_patterns pats) as [ps|e]; [|discriminate].
      destruct (add_group_patterns rc fp i ps psa) as [psa1|e]; [|discriminate].
      rewrite (IH _ _ _ _ Hrun j). unfold refers_to; simpl. unfold heap_upd.
      destruct (Nat.eqb i j) eqn:Eij.
      * apply Nat.eqb_eq in Eij. subst j. rewrite Nat.eqb_refl.
        destruct (existsb _ rest); [apply dict_remove_idem | reflexivity].
      * assert (Eji : Nat.eqb j i = false) by (apply Nat.eqb_neq; apply Nat.eqb_neq in Eij; lia).
        rewrite Eji. reflexivity.
    + rewrite (IH _ _ _ _ Hrun j). unfold refers_to; simpl.
      destruct (Nat.eqb i j) eqn:Eij; simpl; [|reflexivity].
      apply Nat.eqb_eq in Eij. subst j.
      destruct (existsb _ rest); rewrite (dict_remove_absent _ _ Em); reflexivity.
Qed.

(** When no visited inner dictionary has a ["patterns"] key, the loop
    finds no group and touches nothing. *)
Lemma setup_pattern_args_no_groups (rc : string -> bool) (sa : list (string * nat)) :
  forall psa h,
  (forall fp i, In (fp, i) sa -> dict_mem String.eqb "patterns" (h i) = false) ->
  setup_pattern_args rc sa psa h = (Ret psa, h).
Proof.
  induction sa as [|[fp i] rest IH]; intros psa h Hno; [reflexivity|].
  simpl. unfold bind, get_dict.
  rewrite (Hno fp i (or_introl eq_refl)).
  apply IH. intros fp' i' Hin. exact (Hno fp' i' (or_intror Hin)).
Qed.

(** A successful construction: the loop over [specific_args] ran on the
    caller's heap. *)
Lemma make_config_inv (rc : string -> bool) (reg : list (option string * strategy))
    (a : config_args) (h h' : heap) (c : config) :
  make_config rc reg a h = (Ret c, h') ->
  setup_pattern_args rc (match a_specific_args a with None => [] | Some d => d end) [] h
    = (Ret (pattern_specific_args c), h') /\
  specific_args c = match a_specific_args a with None => [] | Some d => d end.
Proof.
  unfold make_config, bind, ret, raise, lift. intro H.
  destruct (a_export a) as [b|s].
  2: destruct (is_blank s); [discriminate|].
  all: destruct (compile_opt_patterns rc (a_include a)); [|discriminate];
       destruct (compile_opt_patterns rc (a_exclude a)); [|discriminate];
       destruct (setup_pattern_args rc _ [] h) as [[psa|e] h1] eqn:Es; [|discriminate];
       inversion H; subst; simpl; split; reflexivity.
Qed.

(** C10: a successful [ComparisonConfig(specific_args=d)] pops ["patterns"]
    from every inner dictionary of [d] in the caller's heap and leaves the
    rest of the heap alone; a later config built (or evolved) from the same
    [d] on that heap then has no pattern group at all, changes nothing, and
    resolves each key of [d], the former group names included, as an
    exact-path entry. *)
Theorem make_config_pops_patterns (rc : string -> bool) (rm : string -> string -> bool)
    (reg : list (option string * strategy)) (a : config_args) (d : list (string * nat))
    (h h' : heap) (c : config) :
  a_specific_args a = Some d ->
  make_config rc reg a h = (Ret c, h') ->
  (forall fp i, In (fp, i) d -> h' i = dict_remove String.eqb "patterns" (h i)) /\
  (forall j, refers_to d j = false -> h' j = h j) /\
  (forall a2 c2 h2, a_specific_args a2 = Some d ->
     make_config rc reg a2 h' = (Ret c2, h2) ->
     pattern_specific_args c2 = [] /\ h2 = h' /\
     (forall fp i, dict_get String.eqb fp d = Some i -> find_specific_args rm c2 fp = FromExact i)).
Proof.
  intros Ha Hc.
  destruct (make_config_inv rc reg a h h' c Hc) as [Hs _]. rewrite Ha in Hs.
  pose proof (setup_pattern_args_heap rc d _ _ _ _ Hs) as HH.
  assert (H1 : forall fp i, In (fp, i) d -> h' i = dict_remove String.eqb "patterns" (h i)).
  { intros fp i Hin. rewrite HH.
    assert (Hr : refers_to d i = true).
    { unfold refers_to. apply existsb_exists. exists (fp, i). split; [exact Hin|].
      apply Nat.eqb_refl. }
    rewrite Hr. reflexivity. }
  split; [exact H1|]. split.
  - intros j Hj. rewrite HH, Hj. reflexivity.
  - intros a2 c2 h2 Ha2 Hc2.
    destruct (make_config_inv rc reg a2 h' h2 c2 Hc2) as [Hs2 Hsa2].
    rewrite Ha2 in Hs2, Hsa2.
    rewrite (setup_pattern_args_no_groups rc d [] h') in Hs2.
    + injection Hs2 as Hp2 Hh2. split; [symmetry; exact Hp2|]. split; [symmetry; exact Hh2|].
      intros fp i Hg. unfold find_specific_args. rewrite Hsa2, Hg. reflexivity.
    + intros fp i Hin. rewrite (H1 fp i Hin). apply dict_mem_remove.
Qed.

Definition group_heap : heap := fun i =>
  match i with
  | 1 => [("patterns", AList ["a"]); ("args", AList ["x"])]
  | _ => []
  end.

Definition group_args : config_args :=
  mk_args None None None (Some [("g1", 1)]) false (EFBool false) Sequential None.

Lemma make_config_pops_patterns_witness :
  exists c h', make_config all_compile std_registry group_args group_heap = (Ret c, h') /\
  h' 1 = [("args", AList ["x"])] /\
  (forall fp i, In (fp, i) [("g1", 1)] -> h' i = dict_remove String.eqb "patterns" (group_heap i)) /\
  (forall j, refers_to [("g1", 1)] j = false -> h' j = group_heap j) /\
  (forall a2 c2 h2, a_specific_args a2 = Some [("g1", 1)] ->
     make_config all_compile std_registry a2 h' = (Ret c2, h2) ->
     pattern_specific_args c2 = [] /\ h2 = h' /\
     (forall fp i, dict_get String.eqb fp [("g1", 1)] = Some i ->
        find_specific_args literal_match c2 fp = FromExact i)).
Proof.
  eexists _, _. split; [cbv; reflexivity|]. split; [reflexivity|].
  eapply (make_config_pops_patterns all_compile literal_match std_registry group_args
           [("g1", 1)] group_heap); [reflexivity | cbv; reflexivity].
Defined.

(** ** Folding per-file results into the outcome mapping *)

Lemma split_into_chunks_concat {A : Type} (items : list A) (n : Z) :
  (0 < n)%Z -> concat (split_into_chunks items n) = items.
Proof.
  intro Hn. rewrite (split_into_chunks_rec items n Hn).
  assert (Hcs : 0 < chunk_size_of items n) by (unfold chunk_size_of; lia).
  apply chunks_rec_concat, (ceil_div_bounds (length items) _ Hcs).
Qed.

Lemma concat_drop_empty {A : Type} (chunks : list (list A)) :
  concat (filter (fun ch => negb (Nat.eqb (length ch) 0)) chunks) = concat chunks.
Proof.
  induction chunks as [|ch rest IH]; [reflexivity|].
  destruct ch; simpl; [exact IH | rewrite IH; reflexivity].
Qed.

Lemma dict_get_set (k k' : string) (v : pyval) (acc : list (string * pyval)) :
  dict_get String.eqb k (dict_set String.eqb k' v acc) =
  if String.eqb k k' then Some v else dict_get String.eqb k acc.
Proof.
  induction acc as [|[k1 v1] acc IH]; simpl.
  - destruct (String.eqb k k'); reflexivity.
  - destruct (String.eqb k' k1) eqn:E1.
    + apply String.eqb_eq in E1. subst k1. simpl.
      destruct (String.eqb k k'); reflexivity.
    + simpl. rewrite IH.
      destruct (String.eqb k k') eqn:E2; [|reflexivity].
      apply String.eqb_eq in E2. subst k'. rewrite E1. reflexivity.
Qed.

(** [for rel, result in results: if p(result): mapping[rel] = result]. *)
Definition add_results (p : pyval -> bool) (rs acc : list (string * pyval))
    : list (string * pyval) :=
  fold_left (fun acc r => if p (snd r) then dict_set String.eqb (fst r) (snd r) acc else acc)
    rs acc.

Lemma add_results_cons (p : pyval -> bool) (r : string * pyval) (rs acc : list (string * pyval)) :
  add_results p (r :: rs) acc =
  add_results p rs (if p (snd r) then dict_set String.eqb (fst r) (snd r) acc else acc).
Proof. reflexivity. Qed.

Lemma add_results_absent (p : pyval -> bool) (k : string) (rs : list (string * pyval)) :
  forall acc, ~ In k (map fst rs) ->
  dict_get String.eqb k (add_results p rs acc) = dict_get String.eqb k acc.
Proof.
  induction rs as [|r rs IH]; intros acc Hk; [reflexivity|].
  simpl in Hk. rewrite add_results_cons.
  rewrite IH by tauto.
  destruct (p (snd r)); [|reflexivity].
  rewrite dict_get_set. destruct (String.eqb k (fst r)) eqn:E; [|reflexivity].
  apply String.eqb_eq in E. exfalso. apply Hk. left. symmetry. exact E.
Qed.

Lemma add_results_const (p : pyval -> bool) (k : string) (w : pyval)
    (rs : list (string * pyval)) :
  forall acc,
  (forall r, In r rs -> fst r = k -> snd r = w) -> p w = true -> In k (map fst rs) ->
  dict_get String.eqb k (add_results p rs acc) = Some w.
Proof.
  induction rs as [|r rs IH]; intros acc Hw Hp Hk; [destruct Hk|].
  rewrite add_results_cons.
  destruct (in_dec String.string_dec k (map fst rs)) as [Hin|Hout].
  - apply IH; [intros r' Hr'; apply Hw; right; exact Hr' | exact Hp | exact Hin].
  - rewrite add_results_absent by exact Hout.
    destruct Hk as [Hk|Hk]; [|contradiction].
    rewrite (Hw r (or_introl eq_refl) Hk), Hp.
    rewrite dict_get_set, Hk, String.eqb_refl. reflexivity.
Qed.

Lemma add_results_app (p : pyval -> bool) (rs1 rs2 acc : list (string * pyval)) :
  add_results p (rs1 ++ rs2) acc = add_results p rs2 (add_results p rs1 acc).
Proof. unfold add_results. apply fold_left_app. Qed.

(** ** Per-file results of the three modes *)

Section EngineProps.

Variable re_compiles : string -> bool.
Variable re_match : string -> string -> bool.
Variable registry : list (option string * strategy).
Variable invoke : strategy -> string -> string -> list argval -> bool -> dict -> outcome pyval.
Variable export : strategy -> string -> string -> dict -> outcome unit.

Definition missing_msg (rel comp_path : string) : string :=
  "The file '" ++ rel ++ "' does not exist in '" ++ comp_path ++ "'.".

(** A per-file result for a path absent from the compared root is the
    missing-file message. *)
Definition ok_result (comp_path : string) (comp_entries : list string)
    (r : string * pyval) : Prop :=
  existsb (String.eqb (fst r)) comp_entries = false -> snd r = VStr (missing_msg (fst r) comp_path).

Lemma compare_single_file_missing (c : config) (ref_path comp_path fdp : string)
    (comp_entries : list string) (rel : string) (h : heap) :
  existsb (String.eqb rel) comp_entries = false ->
  compare_single_file re_match registry invoke export c ref_path comp_path fdp
    comp_entries rel h = (Ret (rel, VStr (missing_msg rel comp_path)), h).
Proof. intro H. unfold compare_single_file. rewrite H. reflexivity. Qed.

Lemma compare_single_file_key (c : config) (ref_path comp_path fdp : string)
    (comp_entries : list string) (rel : string) (h h' : heap) (r : string * pyval) :
  compare_single_file re_match registry invoke export c ref_path comp_path fdp
    comp_entries rel h = (Ret r, h') -> fst r = rel.
Proof.
  unfold compare_single_file, bind, ret, lift, get_dict, pop_arg, put_dict. intro H.
  repeat match type of H with
         | context [match ?x with _ => _ end] => destruct x; try discriminate
         end;
    inversion H; reflexivity.
Qed.

Lemma compare_single_file_ok (c : config) (ref_path comp_path fdp : string)
    (comp_entries : list string) (rel : string) (h h' : heap) (r : string * pyval) :
  compare_single_file re_match registry invoke export c ref_path comp_path fdp
    comp_entries rel h = (Ret r, h') -> fst r = rel /\ ok_result comp_path comp_entries r.
Proof.
  intro H. pose proof (compare_single_file_key _ _ _ _ _ _ _ _ _ H) as Hk.
  split; [exact Hk|]. unfold ok_result. rewrite Hk. intro Hm.
  rewrite (compare_single_file_missing c ref_path comp_path fdp comp_entries rel h Hm) in H.
  inversion H. reflexivity.
Qed.

(** What every successful per-file result satisfies, and what the inline
    message of a per-file error in the process mode satisfies. *)
Definition results_sound (Q : string * pyval -> Prop) (c : config)
    (ref_path comp_path fdp : string) (comp_entries : list string) : Prop :=
  forall rel h r h',
  compare_single_file re_match registry invoke export c ref_path comp_path fdp
    comp_entries rel h = (Ret r, h') -> Q r.

Definition errors_sound (Q : string * pyval -> Prop) (c : config)
    (ref_path comp_path fdp : string) (comp_entries : list string) : Prop :=
  forall rel h e h',
  compare_single_file re_match registry invoke export c ref_path comp_path fdp
    comp_entries rel h = (Raise e, h') -> Q (rel, VStr ("Error comparing file: " ++ exc_str e)).

Lemma run_sequential_results (Q : string * pyval -> Prop) (c : config)
    (ref_path comp_path fdp : string) (comp_entries : list string) (files : list string) :
  results_sound Q c ref_path comp_path fdp comp_entries ->
  forall acc h m h',
  run_sequential re_match registry invoke export c ref_path comp_path fdp comp_entries
    files acc h = (Ret m, h') ->
  exists rs, map fst rs = files /\ Forall Q rs /\ m = add_results is_not_False rs acc.
Proof.
  intro HQ. induction files as [|rel rest IH]; intros acc h m h' H.
  - simpl in H. unfold ret in H. inversion H; subst. exists []. repeat split; constructor.
  - simpl in H. unfold bind in H.
    destruct (compare_single_file re_match registry invoke export c ref_path comp_path fdp
                comp_entries rel h) as [[r|e] h1] eqn:E; [|discriminate].
    pose proof (compare_single_file_key _ _ _ _ _ _ _ _ _ E) as Hk.
    destruct (IH _ _ _ _ H) as [rs [Hf [Hall Hm]]].
    exists (r :: rs). split; [simpl; rewrite Hk, Hf; reflexivity|].
    split; [constructor; [exact (HQ _ _ _ _ E) | exact Hall]|].
    rewrite Hm, add_results_cons, Hk. reflexivity.
Qed.

Lemma run_threads_results (Q : string * pyval -> Prop) (c : config)
    (ref_path comp_path fdp : string) (comp_entries : list string) (files : list string) :
  results_sound Q c ref_path comp_path fdp comp_entries ->
  forall acc h m h',
  run_threads re_match registry invoke export c ref_path comp_path fdp comp_entries
    files acc h = (Ret m, h') ->
  exists rs, map fst rs = files /\ Forall Q rs /\ m = add_results truthy rs acc.
Proof.
  intro HQ. induction files as [|rel rest IH]; intros acc h m h' H.
  - simpl in H. unfold ret in H. inversion H; subst. exists []. repeat split; constructor.
  - simpl in H. unfold bind in H.
    destruct (compare_single_file re_match registry invoke export c ref_path comp_path fdp
                comp_entries rel h) as [[r|e] h1] eqn:E; [|discriminate].
    pose proof (compare_single_file_key _ _ _ _ _ _ _ _ _ E) as Hk.
    pose proof (HQ _ _ _ _ E) as Hr.
    destruct r as [rel' v].
    destruct (IH _ _ _ _ H) as [rs [Hf [Hall Hm]]].
    exists ((rel', v) :: rs). split; [simpl in *; rewrite Hk, Hf; reflexivity|].
    split; [constructor; assumption|].
    rewrite Hm, add_results_cons. reflexivity.
Qed.

Lemma compare_file_chunk_results (Q : string * pyval -> Prop) (c : config)
    (ref_path comp_path fdp : string) (comp_entries : list string) (chunk : list string) :
  results_sound Q c ref_path comp_path fdp comp_entries ->
  errors_sound Q c ref_path comp_path fdp comp_entries ->
  forall h rs h',
  compare_file_chunk re_match registry invoke export c ref_path comp_path fdp comp_entries
    chunk h = (Ret rs, h') ->
  map fst rs = chunk /\ Forall Q rs.
Proof.
  intros HQ HQe. induction chunk as [|rel rest IH]; intros h rs h' H.
  - simpl in H. unfold ret in H. inversion H; subst. split; [reflexivity | constructor].
  - simpl in H. unfold bind, catch, ret in H.
    destruct (compare_single_file re_match registry invoke export c ref_path comp_path fdp
                comp_entries rel h) as [[r|e] h1] eqn:E.
    + pose proof (compare_single_file_key _ _ _ _ _ _ _ _ _ E) as Hk.
      destruct (compare_file_chunk re_match registry invoke export c ref_path comp_path fdp
                  comp_entries rest h1) as [[rs'|e'] h2] eqn:E2; [|discriminate].
      inversion H; subst.
      destruct (IH _ _ _ E2) as [Hf Hall].
      split; [simpl; rewrite Hf; reflexivity | constructor; [exact (HQ _ _ _ _ E) | exact Hall]].
    + destruct (compare_file_chunk re_match registry invoke export c ref_path comp_path fdp
                  comp_entries rest h1) as [[rs'|e'] h2] eqn:E2; [|discriminate].
      inversion H; subst.
      destruct (IH _ _ _ E2) as [Hf Hall].
      split; [simpl; rewrite Hf; reflexivity|].
      constructor; [exact (HQe _ _ _ _ E) | exact Hall].
Qed.

Lemma collect_chunks_results (Q : string * pyval -> Prop) (c : config)
    (ref_path comp_path fdp : string) (comp_entries : list string) (h0 : heap)
    (chunks : list (list string)) :
  results_sound Q c ref_path comp_path fdp comp_entries ->
  errors_sound Q c ref_path comp_path fdp comp_entries ->
  forall acc m,
  collect_chunks re_match registry invoke export c ref_path comp_path fdp comp_entries h0
    chunks acc = Ret m ->
  exists rs, map fst rs = concat chunks /\ Forall Q rs /\ m = add_results truthy rs acc.
Proof.
  intros HQ HQe. induction chunks as [|ch rest IH]; intros acc m H.
  - simpl in H. inversion H; subst. exists []. repeat split; constructor.
  - simpl in H.
    destruct (compare_file_chunk re_match registry invoke export c ref_path comp_path fdp
                comp_entries ch h0) as [[rs1|e] h1] eqn:E; simpl in H; [|discriminate].
    destruct (compare_file_chunk_results _ _ _ _ _ _ _ HQ HQe _ _ _ E) as [Hf1 Hall1].
    destruct (IH _ _ H) as [rs2 [Hf2 [Hall2 Hm]]].
    exists (app rs1 rs2). split; [rewrite map_app, Hf1, Hf2; reflexivity|].
    split; [apply Forall_app; split; assumption|].
    rewrite Hm, add_results_app. reflexivity.
Qed.

(** Whatever the mode, a successful [compare_trees] folds one result per
    collected file, in order, keeping either the results that are not
    [False] (sequential) or the truthy ones (thread, process). *)
Lemma compare_trees_results (Q : string * pyval -> Prop) (cfg0 : option config)
    (kws : list cfg_kw) (ref_path comp_path : string) (ref_entries : list (string * bool))
    (comp_entries : list string) (cpu : option nat) (h h1 h' : heap) (c : config)
    (m : list (string * pyval)) :
  (forall fdp, results_sound Q c ref_path comp_path fdp comp_entries) ->
  (forall fdp, errors_sound Q c ref_path comp_path fdp comp_entries) ->
  check_config re_compiles registry cfg0 kws h = (Ret c, h1) ->
  compare_trees re_compiles re_match registry invoke export cfg0 kws ref_path comp_path
    ref_entries comp_entries cpu h = (Ret m, h') ->
  exists rs, map fst rs = collect_files re_match c ref_entries /\ Forall Q rs /\
    (m = add_results is_not_False rs [] \/ m = add_results truthy rs []).
Proof.
  intros HQ HQe Hc H. unfold compare_trees, bind in H. rewrite Hc in H.
  destruct (negb (executor_eqb (executor_type c) Sequential) &&
            Nat.ltb 1 (length (collect_files re_match c ref_entries))).
  - match type of H with
    | (if (?w <=? 0)%Z then _ else _) _ = _ =>
        destruct (Z.leb_spec w 0) as [Hw|Hw]; [discriminate|]
    end.
    destruct (executor_type c).
    1, 2: destruct (run_threads_results _ _ _ _ _ _ _ (HQ _) _ _ _ _ H) as [rs [Hf [Hall Hm]]];
          exists rs; split; [exact Hf|]; split; [exact Hall | right; exact Hm].
    unfold run_processes in H. injection H as H _.
    destruct (collect_chunks_results _ _ _ _ _ _ _ _ (HQ _) (HQe _) _ _ H)
      as [rs [Hf [Hall Hm]]].
    exists rs. split; [|split; [exact Hall | right; exact Hm]].
    rewrite Hf, concat_drop_empty. apply split_into_chunks_concat. exact Hw.
  - destruct (run_sequential_results _ _ _ _ _ _ _ (HQ _) _ _ _ _ H) as [rs [Hf [Hall Hm]]].
    exists rs. split; [exact Hf|]. split; [exact Hall | left; exact Hm].
Qed.

(** The missing-file message satisfies both conditions. *)
Lemma ok_result_sound (c : config) (ref_path comp_path fdp : string)
    (comp_entries : list string) :
  results_sound (ok_result comp_path comp_entries) c ref_path comp_path fdp comp_entries /\
  errors_sound (ok_result comp_path comp_entries) c ref_path comp_path fdp comp_entries.
Proof.
  split.
  - intros rel h r h' E. exact (proj2 (compare_single_file_ok _ _ _ _ _ _ _ _ _ E)).
  - intros rel h e h' E. unfold ok_result; simpl. intro Hm.
    rewrite (compare_single_file_missing c ref_path comp_path fdp comp_entries rel h Hm) in E.
    discriminate.
Qed.

End EngineProps.

Lemma existsb_eqb_absent (rel : string) (l : list string) :
  ~ In rel l -> existsb (String.eqb rel) l = false.
Proof.
  intro H. destruct (existsb (String.eqb rel) l) eqn:E; [|reflexivity].
  apply existsb_exists in E. destruct E as [x [Hx Hq]].
  apply String.eqb_eq in Hq. subst x. contradiction.
Qed.

(** C6: in every mode, when [compare_trees] returns a mapping, each
    collected reference file (not a directory, not ignored) that is absent
    from the compared root is mapped to the message
    "The file '<rel>' does not exist in '<comp_path>'.", and a path that is
    not among the reference entries (such as a file only in the compared
    root) has no entry. *)
Theorem missing_file_reported (re_compiles : string -> bool)
    (re_match : string -> string -> bool) (registry : list (option string * strategy))
    (invoke : strategy -> string -> string -> list argval -> bool -> dict -> outcome pyval)
    (export : strategy -> string -> string -> dict -> outcome unit)
    (cfg0 : option config) (kws : list cfg_kw) (ref_path comp_path : string)
    (ref_entries : list (string * bool)) (comp_entries : list string) (cpu : option nat)
    (h h1 h' : heap) (c : config) (m : list (string * pyval)) :
  check_config re_compiles registry cfg0 kws h = (Ret c, h1) ->
  compare_trees re_compiles re_match registry invoke export cfg0 kws ref_path comp_path
    ref_entries comp_entries cpu h = (Ret m, h') ->
  (forall rel, In (rel, false) ref_entries -> should_ignore_file re_match c rel = false ->
     ~ In rel comp_entries ->
     dict_get String.eqb rel m =
       Some (VStr ("The file '" ++ rel ++ "' does not exist in '" ++ comp_path ++ "'."))) /\
  (forall rel, ~ In rel (map fst ref_entries) -> dict_get String.eqb rel m = None).
Proof.
  intros Hc H.
  destruct (compare_trees_results re_compiles re_match registry invoke export
              (ok_result comp_path comp_entries) cfg0 kws
              ref_path comp_path ref_entries comp_entries cpu h h1 h' c m
              (fun fdp => proj1 (ok_result_sound re_match registry invoke export c ref_path comp_path fdp comp_entries))
              (fun fdp => proj2 (ok_result_sound re_match registry invoke export c ref_path comp_path fdp comp_entries)) Hc H)
    as [rs [Hf [Hall Hm]]].
  split.
  - intros rel Href Hign Hcomp.
    assert (Hk : In rel (map fst rs)).
    { rewrite Hf. unfold collect_files. apply in_map_iff. exists (rel, false).
      split; [reflexivity|]. apply filter_In. split; [exact Href|]. simpl. rewrite Hign.
      reflexivity. }
    assert (Hw : forall r, In r rs -> fst r = rel ->
                 snd r = VStr (missing_msg rel comp_path)).
    { intros r Hr Hr1. rewrite Forall_forall in Hall. pose proof (Hall r Hr) as Hok.
      unfold ok_result in Hok. rewrite Hr1 in Hok. apply Hok.
      apply existsb_eqb_absent. exact Hcomp. }
    destruct Hm as [-> | ->]; apply add_results_const; auto.
  - intros rel Hnot. destruct Hm as [-> | ->]; apply add_results_absent; rewrite Hf;
      intro Hin; apply Hnot; unfold collect_files in Hin;
      apply in_map_iff in Hin; destruct Hin as [x [Hx Hin]];
      apply filter_In in Hin; apply in_map_iff; exists x; tauto.
Qed.

Lemma missing_file_reported_witness :
  exists c m,
  check_config all_compile std_registry None [] empty_heap = (Ret c, empty_heap) /\
  compare_trees all_compile literal_match std_registry invoke_equal export_noop None []
    "ref" "comp" [("a.json", false); ("b.csv", false)] ["a.json"; "c.txt"] None empty_heap
    = (Ret m, empty_heap) /\
  m = [("b.csv", VStr "The file 'b.csv' does not exist in 'comp'.")] /\
  (forall rel, In (rel, false) [("a.json", false); ("b.csv", false)] ->
     should_ignore_file literal_match c rel = false -> ~ In rel ["a.json"; "c.txt"] ->
     dict_get String.eqb rel m =
       Some (VStr ("The file '" ++ rel ++ "' does not exist in '" ++ "comp" ++ "'."))) /\
  (forall rel, ~ In rel (map fst [("a.json", false); ("b.csv", false)]) ->
     dict_get String.eqb rel m = None).
Proof.
  eexists _, _. split; [cbv; reflexivity|]. split; [cbv; reflexivity|].
  split; [reflexivity|].
  eapply (missing_file_reported all_compile literal_match std_registry invoke_equal
            export_noop None [] "ref" "comp" _ _ None empty_heap empty_heap empty_heap);
    cbv; reflexivity.
Defined.

(** ** Exceptions of a comparator *)









Section EngineExc.

Variable re_compiles : string -> bool.
Variable re_match : string -> string -> bool.
Variable registry : list (option string * strategy).
Variable invoke : strategy -> string -> string -> list argval -> bool -> dict -> outcome pyval.
Variable export : strategy -> string -> string -> dict -> outcome unit.





End EngineExc.

(** ** The control flow of a run does not depend on what comparators do *)

Section Independence.

Variable re_compiles : string -> bool.
Variable re_match : string -> string -> bool.
Variable registry : list (option string * strategy).
Variables invoke invoke' :
  strategy -> string -> string -> list argval -> bool -> dict -> outcome pyval.
Variable export : strategy -> string -> string -> dict -> outcome unit.







End Independence.

(** ** With the export off, [export_formatted_file] is never called *)

Section ExportOff.

Variable re_compiles : string -> bool.
Variable re_match : string -> string -> bool.
Variable registry : list (option string * strategy).
Variable invoke : strategy -> string -> string -> list argval -> bool -> dict -> outcome pyval.
Variables export export' : strategy -> string -> string -> dict -> outcome unit.







End ExportOff.




(** ** Raw diffs of identical files across the modes *)

(** C1 (divergence): two identical JSON files compared with
    [return_raw_diffs=True]: the sequential mode keeps both empty raw diffs
    ([result is not False]), the thread and process modes drop them
    ([if result:]). *)
Lemma raw_diffs_differ_across_modes :
  compare_trees all_compile literal_match std_registry invoke_equal export_noop None
    [KwReturnRawDiffs true; KwExecutor Sequential] "ref" "comp"
    [("a.json", false); ("b.json", false)] ["a.json"; "b.json"] None empty_heap
  = (Ret [("a.json", VRaw 0); ("b.json", VRaw 0)], empty_heap) /\
  compare_trees all_compile literal_match std_registry invoke_equal export_noop None
    [KwReturnRawDiffs true; KwExecutor Thread; KwMaxWorkers (Some 2%Z)] "ref" "comp"
    [("a.json", false); ("b.json", false)] ["a.json"; "b.json"] None empty_heap
  = (Ret [], empty_heap) /\
  compare_trees all_compile literal_match std_registry invoke_equal export_noop None
    [KwReturnRawDiffs true; KwExecutor Process; KwMaxWorkers (Some 2%Z)] "ref" "comp"
    [("a.json", false); ("b.json", false)] ["a.json"; "b.json"] None empty_heap
  = (Ret [], empty_heap).
Proof. split; [|split]; reflexivity. Qed.

(** C2 (divergence): in the sequential mode the mapping stores the falsy
    empty raw diff [[]] of an unchanged file. *)
Lemma sequential_mapping_stores_falsy :
  exists m,
  compare_trees all_compile literal_match std_registry invoke_equal export_noop None
    [KwReturnRawDiffs true] "ref" "comp" [("a.json", false)] ["a.json"] None empty_heap
  = (Ret m, empty_heap) /\
  dict_get String.eqb "a.json" m = Some (VRaw 0) /\ truthy (VRaw 0) = false.
Proof. eexists. split; [cbv; reflexivity | split; reflexivity]. Qed.

(** * Further properties of the code *)

(** ** Collecting and ignoring files *)

(** X2: [_collect_files_to_compare] yields exactly the non-directory
    reference entries that [should_ignore_file] keeps: those matching some
    include pattern (or any path when there is none) and no exclude
    pattern. *)
Theorem collect_files_members (rm : string -> string -> bool) (c : config)
    (entries : list (string * bool)) (rel : string) :
  In rel (collect_files rm c entries) <->
  In (rel, false) entries /\
  (compiled_include_patterns c = [] \/
   existsb (fun p => rm p rel) (compiled_include_patterns c) = true) /\
  existsb (fun p => rm p rel) (compiled_exclude_patterns c) = false.
Proof.
  unfold collect_files, should_ignore_file. rewrite in_map_iff. split.
  - intros [[r b] [Hr Hin]]. simpl in Hr. subst r.
    apply filter_In in Hin. destruct Hin as [Hin Hk]. simpl in Hk.
    destruct b; [discriminate|]. simpl in Hk. split; [exact Hin|].
    destruct (compiled_include_patterns c) as [|p ps].
    + split; [left; reflexivity|].
      destruct (existsb _ _); simpl in Hk; [discriminate | reflexivity].
    + revert Hk. simpl.
      destruct (rm p rel || existsb (fun q => rm q rel) ps); simpl; [|intro Hk; discriminate].
      intro Hk. split; [right; reflexivity|].
      destruct (existsb _ (compiled_exclude_patterns c)); simpl in Hk;
        [discriminate | reflexivity].
  - intros [Hin [Hi He]]. exists (rel, false). split; [reflexivity|].
    apply filter_In. split; [exact Hin|]. simpl.
    destruct (compiled_include_patterns c) as [|p ps].
    + rewrite He. reflexivity.
    + destruct Hi as [Hi|Hi]; [discriminate|]. simpl in Hi. rewrite Hi. simpl. rewrite He. reflexivity.
Qed.

(** ** Errors raised by the constructor *)

Lemma compile_patterns_all (rc : string -> bool) (ps : list string) :
  forallb rc ps = true -> compile_patterns rc ps = Ret ps.
Proof.
  induction ps as [|p ps IH]; simpl; [reflexivity|].
  intro H. apply andb_prop in H. destruct H as [H1 H2]. rewrite H1, (IH H2). reflexivity.
Qed.

Lemma compile_patterns_first_invalid (rc : string -> bool) (pre post : list string)
    (p : string) :
  forallb rc pre = true -> rc p = false ->
  compile_patterns rc (app pre (p :: post)) =
  Raise (value_error ("Invalid regex pattern: '" ++ p ++ "'")).
Proof.
  induction pre as [|q pre IH]; simpl; intros H Hp.
  - rewrite Hp. reflexivity.
  - apply andb_prop in H. destruct H as [H1 H2]. rewrite H1, (IH H2 Hp). reflexivity.
Qed.

(** A visible ASCII character (code 33 to 126), which [str.strip()]
    never removes. *)
Fixpoint has_visible (s : string) : bool :=
  match s with
  | EmptyString => false
  | String c s' =>
      (Nat.leb 33 (nat_of_ascii c) && Nat.leb (nat_of_ascii c) 126) || has_visible s'
  end.

(** The export setting is a bool, or a string with a visible character:
    [_validate_export_formatted_files] accepts it. *)
Definition export_valid (e : export_flag) : bool :=
  match e with EFStr s => has_visible s | EFBool _ => true end.

Lemma is_space_le (c : ascii) : is_space c = true -> nat_of_ascii c <= 32.
Proof.
  intro H. destruct (Nat.le_gt_cases (nat_of_ascii c) 32) as [|Hgt]; [assumption|].
  exfalso. revert H. unfold is_space.
  replace (nat_of_ascii c) with (33 + (nat_of_ascii c - 33)) by lia. simpl. discriminate.
Qed.

Lemma has_visible_not_blank (s : string) : has_visible s = true -> is_blank s = false.
Proof.
  induction s as [|c s IH]; [discriminate|]. cbn [has_visible is_blank].
  intro H. apply orb_prop in H. destruct H as [H|H].
  - apply andb_prop in H. destruct H as [H1 _]. apply Nat.leb_le in H1.
    destruct (is_space c) eqn:Es; [|reflexivity].
    apply is_space_le in Es. lia.
  - rewrite (IH H). apply andb_false_r.
Qed.

Lemma make_config_export_ok {B} (rc : string -> bool) (a : config_args)
    (k : M B) (h : heap) :
  export_valid (a_export a) = true ->
  (match a_export a with
   | EFStr s =>
       if is_blank s then
         raise (value_error
           "export_formatted_files must be a non-empty string when provided as string")
       else ret tt
   | EFBool _ => ret tt
   end ;;; k) h = k h.
Proof.
  unfold export_valid. intro H. destruct (a_export a) as [b|s]; [reflexivity|].
  rewrite (has_visible_not_blank s H). reflexivity.
Qed.

(** X3: with a valid export setting, [ComparisonConfig] rejects the first
    include pattern that does not compile with
    ValueError("Error in include_patterns: Invalid regex pattern: '<p>'"),
    before touching any [specific_args] dictionary. *)
Theorem make_config_include_error (rc : string -> bool)
    (reg : list (option string * strategy)) (a : config_args)
    (pre post : list string) (p : string) (h : heap) :
  export_valid (a_export a) = true ->
  a_include a = Some (app pre (p :: post)) ->
  forallb rc pre = true -> rc p = false ->
  make_config rc reg a h =
  (Raise (value_error ("Error in include_patterns: Invalid regex pattern: '" ++ p ++ "'")), h).
Proof.
  intros He Hi Hpre Hp. unfold make_config.
  rewrite (make_config_export_ok rc a _ h He).
  unfold bind, lift, compile_opt_patterns. rewrite Hi.
  rewrite (compile_patterns_first_invalid rc pre post p Hpre Hp). reflexivity.
Qed.

Lemma make_config_include_error_witness :
  make_config (fun p => negb (String.eqb p "(")) std_registry
    (mk_args (Some ["a"; "("; ")"]) None None None false (EFBool false) Sequential None)
    empty_heap =
  (Raise (value_error ("Error in include_patterns: Invalid regex pattern: '" ++ "(" ++ "'")),
   empty_heap).
Proof.
  apply (make_config_include_error _ _ _ ["a"] [")"] "(" empty_heap); reflexivity.
Defined.

(** X4: when the include patterns all compile, the first exclude pattern
    that does not is rejected with
    ValueError("Error in exclude_patterns: Invalid regex pattern: '<p>'"),
    before touching any [specific_args] dictionary. *)
Theorem make_config_exclude_error (rc : string -> bool)
    (reg : list (option string * strategy)) (a : config_args)
    (pre post : list string) (p : string) (h : heap) :
  export_valid (a_export a) = true ->
  forallb rc (match a_include a with None => [] | Some l => l end) = true ->
  a_exclude a = Some (app pre (p :: post)) ->
  forallb rc pre = true -> rc p = false ->
  make_config rc reg a h =
  (Raise (value_error ("Error in exclude_patterns: Invalid regex pattern: '" ++ p ++ "'")), h).
Proof.
  intros He Hinc Hx Hpre Hp. unfold make_config.
  rewrite (make_config_export_ok rc a _ h He).
  unfold bind, lift, compile_opt_patterns.
  destruct (a_include a) as [l|].
  - rewrite (compile_patterns_all rc l Hinc). rewrite Hx.
    rewrite (compile_patterns_first_invalid rc pre post p Hpre Hp). reflexivity.
  - rewrite Hx. rewrite (compile_patterns_first_invalid rc pre post p Hpre Hp). reflexivity.
Qed.

Lemma make_config_exclude_error_witness :
  make_config (fun p => negb (String.eqb p "[")) std_registry
    (mk_args (Some ["a"]) (Some ["["]) None None false (EFStr "_F") Process None)
    empty_heap =
  (Raise (value_error ("Error in exclude_patterns: Invalid regex pattern: '" ++ "[" ++ "'")),
   empty_heap).
Proof.
  apply (make_config_exclude_error _ _ _ [] [] "[" empty_heap); reflexivity.
Defined.






Lemma add_group_patterns_first_invalid (rc : string -> bool) (fp : string) (i : nat)
    (pre post : list string) (p : string) :
  forall psa, forallb rc pre = true -> rc p = false ->
  add_group_patterns rc fp i (app pre (p :: post)) psa =
  Raise (value_error ("Error in specific_args['" ++ fp ++ "']['patterns']: "
                      ++ "Invalid regex pattern: '" ++ p ++ "'")).
Proof.
  induction pre as [|q pre IH]; intros psa H Hp; simpl.
  - rewrite Hp. reflexivity.
  - simpl in H. apply andb_prop in H. destruct H as [H1 H2]. rewrite H1. apply IH; assumption.
Qed.

Lemma setup_pattern_args_skip (rc : string -> bool) (sa0 sa : list (string * nat)) :
  forall psa h,
  (forall fp j, In (fp, j) sa0 -> dict_mem String.eqb "patterns" (h j) = false) ->
  setup_pattern_args rc (app sa0 sa) psa h = setup_pattern_args rc sa psa h.
Proof.
  induction sa0 as [|[fp j] sa0 IH]; intros psa h Hno; [reflexivity|].
  simpl. unfold bind, get_dict. rewrite (Hno fp j (or_introl eq_refl)).
  apply IH. intros fp' j' Hin. exact (Hno fp' j' (or_intror Hin)).
Qed.

(** X6: when the first pattern group of [specific_args] (the first inner
    dictionary with a ["patterns"] key) lists a pattern that does not
    compile, [ComparisonConfig] raises ValueError("Error in
    specific_args['<name>']['patterns']: Invalid regex pattern: '<p>'"),
    and the caller's inner dictionary has already lost its ["patterns"]
    key. *)
Theorem make_config_group_pattern_error (rc : string -> bool)
    (reg : list (option string * strategy)) (a : config_args)
    (sa0 rest : list (string * nat)) (fp : string) (i : nat)
    (pre post : list string) (p : string) (h : heap) :
  export_valid (a_export a) = true ->
  forallb rc (match a_include a with None => [] | Some l => l end) = true ->
  forallb rc (match a_exclude a with None => [] | Some l => l end) = true ->
  a_specific_args a = Some (app sa0 ((fp, i) :: rest)) ->
  (forall fp' j, In (fp', j) sa0 -> dict_mem String.eqb "patterns" (h j) = false) ->
  dict_get String.eqb "patterns" (h i) = Some (AList (app pre (p :: post))) ->
  forallb rc pre = true -> rc p = false ->
  make_config rc reg a h =
  (Raise (value_error ("Error in specific_args['" ++ fp ++ "']['patterns']: "
                       ++ "Invalid regex pattern: '" ++ p ++ "'")),
   heap_upd h i (dict_remove String.eqb "patterns" (h i))).
Proof.
  intros He Hinc Hexc Hsa Hno Hg Hpre Hp. unfold make_config.
  rewrite (make_config_export_ok rc a _ h He).
  unfold bind, lift, compile_opt_patterns.
  assert (Hi : match a_include a with None => Ret [] | Some l => compile_patterns rc l end
               = Ret (match a_include a with None => [] | Some l => l end))
    by (destruct (a_include a); [apply compile_patterns_all; exact Hinc | reflexivity]).
  assert (Hx : match a_exclude a with None => Ret [] | Some l => compile_patterns rc l end
               = Ret (match a_exclude a with None => [] | Some l => l end))
    by (destruct (a_exclude a); [apply compile_patterns_all; exact Hexc | reflexivity]).
  rewrite Hi, Hx, Hsa. rewrite (setup_pattern_args_skip rc sa0 _ [] h Hno).
  simpl. unfold bind, get_dict, dict_mem. rewrite Hg.
  unfold dict_pop. rewrite Hg. unfold put_dict, lift. simpl.
  rewrite (add_group_patterns_first_invalid rc fp i pre post p [] Hpre Hp). reflexivity.
Qed.

Definition bad_group_heap : heap := fun j =>
  if Nat.eqb j 0 then [("args", AList ["1"])]
  else if Nat.eqb j 1 then [("patterns", AList ["a.*"; "("]); ("args", AList ["2"])]
  else [].

Lemma make_config_group_pattern_error_witness :
  make_config (fun p => negb (String.eqb p "(")) std_registry
    (mk_args None None None (Some [("a.json", 0); ("grp", 1)]) false (EFBool false)
       Sequential None) bad_group_heap =
  (Raise (value_error ("Error in specific_args['" ++ "grp" ++ "']['patterns']: "
                       ++ "Invalid regex pattern: '" ++ "(" ++ "'")),
   heap_upd bad_group_heap 1 (dict_remove String.eqb "patterns" (bad_group_heap 1))).
Proof.
  apply (make_config_group_pattern_error _ _ _ [("a.json", 0)] [] "grp" 1 ["a.*"] [] "(");
    try reflexivity.
  intros fp' j Hin. destruct Hin as [Hin|[]]. injection Hin as _ <-. reflexivity.
Defined.

(** ** The comparator registry *)

Section DictLemmas.
Context {K V : Type} (eqk : K -> K -> bool).
Hypothesis eqk_spec : forall a b, eqk a b = true <-> a = b.

Lemma eqk_refl (a : K) : eqk a a = true.
Proof. apply eqk_spec. reflexivity. Qed.

Lemma eqk_sym (a b : K) : eqk a b = eqk b a.
Proof.
  destruct (eqk a b) eqn:E1, (eqk b a) eqn:E2; try reflexivity.
  - apply eqk_spec in E1. subst. rewrite eqk_refl in E2. discriminate.
  - apply eqk_spec in E2. subst. rewrite eqk_refl in E1. discriminate.
Qed.

Lemma gen_dict_get_set (k k' : K) (v : V) (d : list (K * V)) :
  dict_get eqk k (dict_set eqk k' v d) = if eqk k k' then Some v else dict_get eqk k d.
Proof.
  induction d as [|[k1 v1] d IH]; simpl.
  - destruct (eqk k k'); reflexivity.
  - destruct (eqk k' k1) eqn:E1.
    + apply eqk_spec in E1. subst k1. simpl. destruct (eqk k k'); reflexivity.
    + simpl. rewrite IH. destruct (eqk k k') eqn:E2; [|reflexivity].
      apply eqk_spec in E2. subst k'. rewrite E1. reflexivity.
Qed.

Lemma gen_dict_get_remove (k k' : K) (d : list (K * V)) :
  dict_get eqk k (dict_remove eqk k' d) = if eqk k k' then None else dict_get eqk k d.
Proof.
  unfold dict_remove. induction d as [|[k1 v1] d IH]; simpl.
  - destruct (eqk k k'); reflexivity.
  - destruct (eqk k' k1) eqn:E1; simpl.
    + rewrite IH. apply eqk_spec in E1. subst k1.
      destruct (eqk k k'); reflexivity.
    + rewrite IH. destruct (eqk k k1) eqn:E2; [|reflexivity].
      apply eqk_spec in E2. subst k1. rewrite eqk_sym, E1. reflexivity.
Qed.

Lemma gen_dict_remove_set_absent (k : K) (v : V) (d : list (K * V)) :
  dict_get eqk k d = None -> dict_remove eqk k (dict_set eqk k v d) = d.
Proof.
  unfold dict_remove. induction d as [|[k1 v1] d IH]; simpl; intro H.
  - rewrite eqk_refl. reflexivity.
  - destruct (eqk k k1) eqn:E; [discriminate|]. simpl. rewrite E. simpl.
    f_equal. exact (IH H).
Qed.

End DictLemmas.

Lemma opt_str_eqb_spec (a b : option string) : opt_str_eqb a b = true <-> a = b.
Proof.
  destruct a as [x|], b as [y|]; simpl; split; intro H; try discriminate; try reflexivity.
  - apply String.eqb_eq in H. subst. reflexivity.
  - injection H as ->. apply String.eqb_refl.
Qed.

Lemma take_line_idem (s : string) : take_line (take_line s) = take_line s.
Proof.
  induction s as [|c s IH]; simpl; [reflexivity|].
  destruct (Ascii.eqb c (ascii_of_nat 10)) eqn:E; simpl; [reflexivity|].
  rewrite E, IH. reflexivity.
Qed.

(** X7: [format_ext] always yields a key that starts with a dot, adds the
    dot only when [ext] has none (so "json" and ".json" name the same
    registry key), and is idempotent. *)
Theorem format_ext_normal_form (ext : string) :
  (exists t, format_ext ext = String "."%char t) /\
  format_ext (format_ext ext) = format_ext ext /\
  ((forall t, ext <> String "."%char t) -> format_ext (String "."%char ext) = format_ext ext).
Proof.
  split; [eexists; reflexivity|]. split.
  - unfold format_ext at 1. simpl. unfold format_ext. rewrite take_line_idem. reflexivity.
  - intros Hne. unfold format_ext. simpl. destruct ext as [|c s]; [reflexivity|].
    destruct (Ascii.eqb c "."%char) eqn:E; [|reflexivity].
    apply Ascii.eqb_eq in E. subst c. exfalso. exact (Hne s eq_refl).
Qed.

Lemma format_ext_normal_form_witness :
  format_ext "json" = ".json" /\ format_ext ".json" = ".json" /\
  format_ext (format_ext "json") = format_ext "json" /\
  format_ext (String "."%char "json") = format_ext "json".
Proof.
  split; [reflexivity|]. split; [reflexivity|].
  destruct (format_ext_normal_form "json") as [_ [H2 H3]].
  split; [exact H2|]. apply H3. intros t Ht. discriminate.
Defined.

(** X8: [register_comparator] fails exactly when [force] is false and the
    normalised extension is already a key, with ValueError("The '<ext>'
    extension is already registered and must be unregistered before being
    replaced.") and nothing changed; otherwise the key maps to the new
    comparator and every other key keeps its entry. *)
Theorem register_comparator_spec (ext : string) (c : strategy) (force : bool)
    (reg : comparator_registry) :
  match register_comparator ext c force reg with
  | Ret reg' =>
      (force = true \/ dict_mem opt_str_eqb (Some (format_ext ext)) reg = false) /\
      dict_get opt_str_eqb (Some (format_ext ext)) reg' = Some c /\
      (forall k, k <> Some (format_ext ext) ->
                 dict_get opt_str_eqb k reg' = dict_get opt_str_eqb k reg)
  | Raise e =>
      force = false /\ dict_mem opt_str_eqb (Some (format_ext ext)) reg = true /\
      e = value_error ("The '" ++ format_ext ext ++ "' extension is already registered "
                       ++ "and must be unregistered before being replaced.")
  end.
Proof.
  unfold register_comparator.
  destruct force; cbn [negb andb].
  2: destruct (dict_mem opt_str_eqb (Some (format_ext ext)) reg) eqn:Em;
     [repeat split; reflexivity|].
  all: split; [first [left; reflexivity | right; reflexivity] |]; split;
       [rewrite (gen_dict_get_set opt_str_eqb opt_str_eqb_spec),
          (eqk_refl opt_str_eqb opt_str_eqb_spec); reflexivity|];
       intros k Hk; rewrite (gen_dict_get_set opt_str_eqb opt_str_eqb_spec);
       destruct (opt_str_eqb k (Some (format_ext ext))) eqn:E; [|reflexivity];
       apply opt_str_eqb_spec in E; contradiction.
Qed.

(** X9: [unregister_comparator] fails exactly when [quiet] is false and the
    normalised extension is not a key, with ValueError("The '<ext>'
    extension is not registered."); otherwise it returns the comparator
    that was registered ([None] if none, only possible when [quiet]), the
    key is gone and every other key keeps its entry. *)
Theorem unregister_comparator_spec (ext : string) (quiet : bool) (reg : comparator_registry) :
  match unregister_comparator ext quiet reg with
  | Ret (old, reg') =>
      old = dict_get opt_str_eqb (Some (format_ext ext)) reg /\
      dict_get opt_str_eqb (Some (format_ext ext)) reg' = None /\
      (forall k, k <> Some (format_ext ext) ->
                 dict_get opt_str_eqb k reg' = dict_get opt_str_eqb k reg) /\
      (quiet = false -> old <> None)
  | Raise e =>
      quiet = false /\ dict_mem opt_str_eqb (Some (format_ext ext)) reg = false /\
      e = value_error ("The '" ++ format_ext ext ++ "' extension is not registered.")
  end.
Proof.
  unfold unregister_comparator.
  assert (Hrest : forall q : bool, (q = false -> dict_mem opt_str_eqb (Some (format_ext ext)) reg = true) ->
    match match dict_get opt_str_eqb (Some (format_ext ext)) reg with
          | Some v => Ret (Some v, dict_remove opt_str_eqb (Some (format_ext ext)) reg)
          | None => Ret (None, reg)
          end with
    | Ret (old, reg') =>
        old = dict_get opt_str_eqb (Some (format_ext ext)) reg /\
        dict_get opt_str_eqb (Some (format_ext ext)) reg' = None /\
        (forall k, k <> Some (format_ext ext) ->
                   dict_get opt_str_eqb k reg' = dict_get opt_str_eqb k reg) /\
        (q = false -> old <> None)
    | Raise e =>
        q = false /\ dict_mem opt_str_eqb (Some (format_ext ext)) reg = false /\
        e = value_error ("The '" ++ format_ext ext ++ "' extension is not registered.")
    end).
  { intros q Hq. destruct (dict_get opt_str_eqb (Some (format_ext ext)) reg) eqn:Eg.
    - split; [reflexivity|]. split.
      + rewrite (gen_dict_get_remove opt_str_eqb opt_str_eqb_spec),
          (eqk_refl opt_str_eqb opt_str_eqb_spec). reflexivity.
      + split; [|intros _; discriminate].
        intros k Hk. rewrite (gen_dict_get_remove opt_str_eqb opt_str_eqb_spec).
        destruct (opt_str_eqb k (Some (format_ext ext))) eqn:E; [|reflexivity].
        apply opt_str_eqb_spec in E. contradiction.
    - split; [reflexivity|]. split; [exact Eg|]. split; [intros; reflexivity|].
      intro H0. specialize (Hq H0). unfold dict_mem in Hq. rewrite Eg in Hq. discriminate. }
  destruct quiet; cbn [negb andb].
  - apply Hrest. intro H0. discriminate.
  - destruct (dict_mem opt_str_eqb (Some (format_ext ext)) reg) eqn:Em; cbn [negb].
    + apply Hrest. intros _. reflexivity.
    + repeat split; reflexivity.
Qed.

(** X10: registering a comparator for an extension that is not a key, then
    unregistering that extension, returns the comparator and restores the
    registry exactly, whatever [force] and [quiet]. *)
Theorem register_unregister_roundtrip (ext : string) (c : strategy) (force quiet : bool)
    (reg : comparator_registry) :
  dict_get opt_str_eqb (Some (format_ext ext)) reg = None ->
  exists reg', register_comparator ext c force reg = Ret reg' /\
               unregister_comparator ext quiet reg' = Ret (Some c, reg).
Proof.
  intro H. unfold register_comparator.
  assert (Hm : dict_mem opt_str_eqb (Some (format_ext ext)) reg = false)
    by (unfold dict_mem; rewrite H; reflexivity).
  rewrite Hm, andb_false_r. eexists. split; [reflexivity|].
  unfold unregister_comparator, dict_mem.
  rewrite (gen_dict_get_set opt_str_eqb opt_str_eqb_spec),
    (eqk_refl opt_str_eqb opt_str_eqb_spec). cbn [negb]. rewrite andb_false_r.
  rewrite (gen_dict_remove_set_absent opt_str_eqb opt_str_eqb_spec _ _ _ H). reflexivity.
Qed.

Definition yaml_strategy : strategy := mk_strategy "YamlComparator" true 2.

Lemma register_unregister_roundtrip_witness :
  dict_get opt_str_eqb (Some (format_ext "yaml")) std_registry = None /\
  exists reg', register_comparator "yaml" yaml_strategy false std_registry = Ret reg' /\
               unregister_comparator "yaml" false reg' = Ret (Some yaml_strategy, std_registry).
Proof.
  split; [reflexivity|]. apply register_unregister_roundtrip. reflexivity.
Defined.

Lemma make_config_comparators (rc : string -> bool) (reg : list (option string * strategy))
    (a : config_args) (h h' : heap) (c : config) :
  make_config rc reg a h = (Ret c, h') ->
  comparators c = match a_comparators a with None => reg | Some cs => cs end.
Proof.
  unfold make_config, bind, ret, raise, lift. intro H.
  destruct (a_export a) as [b|s].
  2: destruct (is_blank s); [discriminate|].
  all: destruct (compile_opt_patterns rc (a_include a)); [|discriminate];
       destruct (compile_opt_patterns rc (a_exclude a)); [|discriminate];
       destruct (setup_pattern_args rc _ [] h) as [[psa|e] h1]; [|discriminate];
       inversion H; subst; reflexivity.
Qed.

(** X11: after [register_comparator(ext, c)] succeeds, a [ComparisonConfig]
    built without a [comparators] override resolves every file whose suffix
    is the normalised extension, and that has no comparator override, to
    [c]. *)
Theorem register_then_config_picks (rc : string -> bool) (ext : string) (c : strategy)
    (force : bool) (reg reg' : comparator_registry) (a : config_args) (h h' : heap)
    (cfg : config) :
  register_comparator ext c force reg = Ret reg' ->
  a_comparators a = None ->
  make_config rc reg' a h = (Ret cfg, h') ->
  pick_comparator ANone (Some (format_ext ext)) (Some (comparators cfg)) reg' = Ret c.
Proof.
  intros Hr Ha Hm. rewrite (make_config_comparators _ _ _ _ _ _ Hm), Ha.
  pose proof (register_comparator_spec ext c force reg) as Hs. rewrite Hr in Hs.
  destruct Hs as [_ [Hget _]].
  unfold pick_comparator. simpl. rewrite Hget. reflexivity.
Qed.

Lemma register_then_config_picks_witness :
  exists reg' cfg,
  register_comparator "yaml" yaml_strategy false std_registry = Ret reg' /\
  make_config all_compile reg' default_args empty_heap = (Ret cfg, empty_heap) /\
  pick_comparator ANone (Some (format_ext "yaml")) (Some (comparators cfg)) reg' =
  Ret yaml_strategy.
Proof.
  eexists _, _. split; [reflexivity|]. split; [cbv; reflexivity|].
  eapply (register_then_config_picks all_compile "yaml" yaml_strategy false std_registry _
            default_args empty_heap empty_heap);
    [reflexivity | reflexivity | cbv; reflexivity].
Defined.

(** X12: after [unregister_comparator(ext)] succeeds, [pick_comparator]
    on the registry resolves a file with that suffix (and no override)
    exactly as an extensionless file: to the default entry, or to
    RuntimeError('No default comparator available') when there is none;
    unregistering never removes the default itself. *)
Theorem unregister_falls_back_to_default (ext : string) (quiet : bool)
    (reg reg' : comparator_registry) (old : option strategy) :
  unregister_comparator ext quiet reg = Ret (old, reg') ->
  pick_comparator ANone (Some (format_ext ext)) None reg' =
  pick_comparator ANone None None reg.
Proof.
  intro Hu. pose proof (unregister_comparator_spec ext quiet reg) as Hs. rewrite Hu in Hs.
  destruct Hs as [_ [Hnone [Hother _]]].
  unfold pick_comparator. simpl. rewrite Hnone.
  rewrite (Hother None) by discriminate. reflexivity.
Qed.

Lemma unregister_falls_back_to_default_witness :
  unregister_comparator "json" false std_registry =
    Ret (Some json_strategy, [(None, default_strategy)]) /\
  pick_comparator ANone (Some (format_ext "json")) None [(None, default_strategy)] =
  pick_comparator ANone None None std_registry.
Proof.
  split; [reflexivity|].
  apply (unregister_falls_back_to_default "json" false std_registry _ (Some json_strategy)).
  reflexivity.
Defined.

Lemma dict_set_forall (P : string * pyval -> Prop) (k : string) (v : pyval)
    (acc : list (string * pyval)) :
  (forall k', P (k', v)) -> Forall P acc -> Forall P (dict_set String.eqb k v acc).
Proof.
  intros Hv. induction acc as [|[k1 v1] acc IH]; intro Hacc; simpl.
  - constructor; [apply Hv | constructor].
  - inversion Hacc; subst. destruct (String.eqb k k1).
    + constructor; [apply Hv | assumption].
    + constructor; [assumption | apply IH; assumption].
Qed.

Lemma add_results_forall (p : pyval -> bool) (rs : list (string * pyval)) :
  forall acc, Forall (fun kv => p (snd kv) = true) acc ->
  Forall (fun kv => p (snd kv) = true) (add_results p rs acc).
Proof.
  induction rs as [|r rs IH]; intros acc H; [exact H|].
  rewrite add_results_cons. apply IH.
  destruct (p (snd r)) eqn:E; [|exact H].
  apply dict_set_forall; [intro k'; exact E | exact H].
Qed.

Lemma trivial_sound (rm : string -> string -> bool) (registry : list (option string * strategy))
    (invoke : strategy -> string -> string -> list argval -> bool -> dict -> outcome pyval)
    (export : strategy -> string -> string -> dict -> outcome unit)
    (c : config) (ref_path comp_path fdp : string) (comp_entries : list string) :
  results_sound rm registry invoke export (fun _ => True) c ref_path comp_path fdp comp_entries /\
  errors_sound rm registry invoke export (fun _ => True) c ref_path comp_path fdp comp_entries.
Proof. unfold results_sound, errors_sound. split; intros; exact I. Qed.

(** X16: when [compare_trees] runs the thread or the process branch
    (executor not sequential, more than one collected file), every value of
    the mapping it returns is truthy: [False], [None], empty strings and
    empty raw diffs are never stored there. *)
Theorem parallel_mapping_truthy (rc : string -> bool)
    (rm : string -> string -> bool) (registry : list (option string * strategy))
    (invoke : strategy -> string -> string -> list argval -> bool -> dict -> outcome pyval)
    (export : strategy -> string -> string -> dict -> outcome unit)
    (cfg0 : option config) (kws : list cfg_kw) (ref_path comp_path : string)
    (ref_entries : list (string * bool)) (comp_entries : list string) (cpu : option nat)
    (h h1 h' : heap) (c : config) (m : list (string * pyval)) :
  check_config rc registry cfg0 kws h = (Ret c, h1) ->
  executor_type c <> Sequential ->
  1 < length (collect_files rm c ref_entries) ->
  compare_trees rc rm registry invoke export cfg0 kws ref_path comp_path ref_entries
    comp_entries cpu h = (Ret m, h') ->
  Forall (fun kv => truthy (snd kv) = true) m.
Proof.
  intros Hc Hx Hn H. unfold compare_trees, bind in H. rewrite Hc in H.
  assert (Hx' : executor_eqb (executor_type c) Sequential = false)
    by (destruct (executor_type c); [contradiction | reflexivity | reflexivity]).
  rewrite Hx' in H. apply Nat.ltb_lt in Hn. rewrite Hn in H. simpl in H.
  match type of H with
  | (if (?w <=? 0)%Z then _ else _) _ = _ => destruct (w <=? 0)%Z; [discriminate|]
  end.
  destruct (executor_type c).
  1, 2: destruct (run_threads_results rm registry invoke export _ _ _ _ _ _ _
                    (proj1 (trivial_sound rm registry invoke export c ref_path comp_path _
                              comp_entries)) _ _ _ _ H) as [rs [_ [_ Hm]]];
        rewrite Hm; apply add_results_forall; constructor.
  unfold run_processes in H. injection H as H _.
  destruct (trivial_sound rm registry invoke export c ref_path comp_path
              (comp_path ++ formatted_suffix (export_formatted_files c)) comp_entries)
    as [Hs He].
  destruct (collect_chunks_results rm registry invoke export _ _ _ _ _ _ _ _ Hs He _ _ H)
    as [rs [_ [_ Hm]]].
  rewrite Hm. apply add_results_forall. constructor.
Qed.

Lemma parallel_mapping_truthy_witness :
  exists c m,
  check_config all_compile std_registry None
    [KwReturnRawDiffs true; KwExecutor Thread; KwMaxWorkers (Some 2%Z)] empty_heap =
    (Ret c, empty_heap) /\
  compare_trees all_compile literal_match std_registry invoke_differ export_noop None
    [KwReturnRawDiffs true; KwExecutor Thread; KwMaxWorkers (Some 2%Z)] "ref" "comp"
    [("a.json", false); ("b.json", false)] ["a.json"; "b.json"] None empty_heap =
    (Ret m, empty_heap) /\
  Forall (fun kv => truthy (snd kv) = true) m.
Proof.
  eexists _, _. split; [cbv; reflexivity|]. split; [cbv; reflexivity|].
  eapply (parallel_mapping_truthy all_compile literal_match std_registry invoke_differ
            export_noop None [KwReturnRawDiffs true; KwExecutor Thread; KwMaxWorkers (Some 2%Z)]
            "ref" "comp" [("a.json", false); ("b.json", false)] ["a.json"; "b.json"] None
            empty_heap empty_heap empty_heap);
    [cbv; reflexivity | discriminate | cbv; lia | cbv; reflexivity].
Defined.

(** ** What the per-file comparison does to the shared dictionaries *)

Lemma dict_pop_snd (k : string) (dflt : argval) (d : dict) :
  snd (dict_pop String.eqb k dflt d) = dict_remove String.eqb k d.
Proof.
  unfold dict_pop. destruct (dict_get String.eqb k d) eqn:E; [reflexivity|].
  simpl. symmetry. apply dict_remove_absent. unfold dict_mem. rewrite E. reflexivity.
Qed.

Lemma dict_pop_eq (k : string) (dflt v : argval) (d d' : dict) :
  dict_pop String.eqb k dflt d = (v, d') -> d' = dict_remove String.eqb k d.
Proof.
  intro H. pose proof (dict_pop_snd k dflt d) as P. rewrite H in P. exact P.
Qed.


Lemma dict_mem_remove_same (k : string) (d : dict) :
  dict_mem String.eqb k (dict_remove String.eqb k d) = false.
Proof.
  unfold dict_mem. rewrite (gen_dict_get_remove String.eqb String.eqb_eq).
  rewrite String.eqb_refl. reflexivity.
Qed.













(** ** The pipeline of [BaseComparator.__call__] *)

Lemma str_leb_refl (a : string) : str_leb a a = true.
Proof.
  induction a as [|x a IH]; [reflexivity|]. simpl.
  rewrite Nat.ltb_irrefl, Nat.eqb_refl. exact IH.
Qed.

Lemma str_leb_antisym (a b : string) : str_leb a b = true -> str_leb b a = true -> a = b.
Proof.
  revert b; induction a as [|x a IH]; intros b H1 H2; destruct b as [|y b];
    try reflexivity; try discriminate; simpl in *.
  destruct (Nat.ltb_spec (nat_of_ascii x) (nat_of_ascii y));
  destruct (Nat.ltb_spec (nat_of_ascii y) (nat_of_ascii x)); try lia.
  - destruct (Nat.eqb_spec (nat_of_ascii y) (nat_of_ascii x)); [lia | discriminate].
  - destruct (Nat.eqb_spec (nat_of_ascii x) (nat_of_ascii y)); [lia | discriminate].
  - assert (E : nat_of_ascii x = nat_of_ascii y) by lia.
    rewrite E, Nat.eqb_refl in H1. rewrite E, Nat.eqb_refl in H2.
    assert (x = y) as ->.
    { rewrite <- (ascii_nat_embedding x), <- (ascii_nat_embedding y), E. reflexivity. }
    f_equal. apply IH; assumption.
Qed.

Lemma str_leb_trans (a b c : string) :
  str_leb a b = true -> str_leb b c = true -> str_leb a c = true.
Proof.
  revert b c; induction a as [|x a IH]; intros b c H1 H2; [reflexivity|].
  destruct b as [|y b]; [discriminate|]. destruct c as [|z c]; [discriminate|].
  simpl in *.
  destruct (Nat.ltb_spec (nat_of_ascii x) (nat_of_ascii y));
  destruct (Nat.ltb_spec (nat_of_ascii y) (nat_of_ascii z));
  destruct (Nat.ltb_spec (nat_of_ascii x) (nat_of_ascii z)); try reflexivity; try lia;
  destruct (Nat.eqb_spec (nat_of_ascii x) (nat_of_ascii y));
  destruct (Nat.eqb_spec (nat_of_ascii y) (nat_of_ascii z));
  destruct (Nat.eqb_spec (nat_of_ascii x) (nat_of_ascii z)); try discriminate; try lia.
  eapply IH; eassumption.
Qed.

Definition str_rel (a b : string) : Prop := str_leb a b = true.

Lemma insert_str_perm (x : string) (l : list string) : Permutation (x :: l) (insert_str x l).
Proof.
  induction l as [|y l IH]; simpl; [reflexivity|].
  destruct (str_leb x y); [reflexivity|].
  eapply perm_trans; [apply perm_swap | constructor; exact IH].
Qed.

Lemma sorted_strs_perm (l : list string) : Permutation l (sorted_strs l).
Proof.
  induction l as [|x l IH]; simpl; [reflexivity|].
  eapply perm_trans; [constructor; exact IH | apply insert_str_perm].
Qed.

Lemma insert_str_sorted (x : string) (l : list string) :
  Sorted str_rel l -> Sorted str_rel (insert_str x l).
Proof.
  induction 1 as [|y l Hs IH Hhd]; simpl; [repeat constructor|].
  destruct (str_leb x y) eqn:Hxy.
  - constructor; [constructor; assumption | constructor; exact Hxy].
  - constructor; [exact IH|]. destruct l as [|z l]; simpl.
    + constructor. apply str_leb_total, Hxy.
    + inversion Hhd; subst. destruct (str_leb x z); constructor;
        [apply str_leb_total, Hxy | assumption].
Qed.

Lemma sorted_strs_sorted (l : list string) : Sorted str_rel (sorted_strs l).
Proof. induction l; simpl; [constructor | apply insert_str_sorted; auto]. Qed.

Lemma strongly_sorted_perm_eq (l1 l2 : list string) :
  StronglySorted str_rel l1 -> StronglySorted str_rel l2 -> Permutation l1 l2 -> l1 = l2.
Proof.
  revert l2; induction l1 as [|a l1 IH]; intros l2 S1 S2 P.
  - symmetry. apply Permutation_nil, P.
  - destruct l2 as [|b l2]; [apply Permutation_sym, Permutation_nil in P; discriminate|].
    inversion S1 as [|? ? S1' F1]; inversion S2 as [|? ? S2' F2]; subst.
    assert (Hab : a = b).
    { destruct (String.eqb_spec a b) as [|Hne]; [assumption|].
      assert (Ha : In a l2).
      { assert (In a (b :: l2)) as [|]; [eapply Permutation_in; [exact P | left; reflexivity]
                                         | congruence | assumption]. }
      assert (Hb : In b l1).
      { assert (In b (a :: l1)) as [|]; [eapply Permutation_in;
          [apply Permutation_sym, P | left; reflexivity] | congruence | assumption]. }
      apply str_leb_antisym.
      - rewrite Forall_forall in F1. exact (F1 b Hb).
      - rewrite Forall_forall in F2. exact (F2 a Ha). }
    subst b. f_equal. apply IH; [assumption | assumption |].
    exact (Permutation_cons_inv P).
Qed.

Lemma sorted_strs_perm_eq (l1 l2 : list string) :
  Permutation l1 l2 -> sorted_strs l1 = sorted_strs l2.
Proof.
  intro P. apply strongly_sorted_perm_eq.
  - apply Sorted_StronglySorted; [intros x y z; apply str_leb_trans | apply sorted_strs_sorted].
  - apply Sorted_StronglySorted; [intros x y z; apply str_leb_trans | apply sorted_strs_sorted].
  - eapply perm_trans; [apply Permutation_sym, sorted_strs_perm|].
    eapply perm_trans; [exact P | apply sorted_strs_perm].
Qed.

(** Two [diff] outputs that differ only in the order of the differences. *)
Definition diff_equiv (d1 d2 : diff_out) : Prop :=
  match d1, d2 with
  | DBool b1, DBool b2 => b1 = b2
  | DSeq l1, DSeq l2 => Permutation l1 l2
  | _, _ => False
  end.

(** X17: the report of [BaseComparator.__call__] (default [sort],
    [concatenate] and [report]) does not depend on the order in which
    [diff] yields the differences, as long as [filter] keeps a permutation
    of its input a permutation (as the default [filter] does). *)
Theorem base_call_order_independent {D : Type} (load : string -> kwdict -> D)
    (format_data : D -> D -> kwdict -> D) (diff1 diff2 : D -> D -> list argval -> kwdict -> diff_out)
    (filter_stage : list string -> kwdict -> list string) (format_diff : string -> kwdict -> string)
    (b : base_comparator) (ref_file comp_file : string) (diff_args : list argval)
    (ck : call_kwargs) :
  (forall l1 l2 k, Permutation l1 l2 -> Permutation (filter_stage l1 k) (filter_stage l2 k)) ->
  (forall r c a k, diff_equiv (diff1 r c a k) (diff2 r c a k)) ->
  base_call load format_data diff1 filter_stage format_diff b ref_file comp_file diff_args false ck =
  base_call load format_data diff2 filter_stage format_diff b ref_file comp_file diff_args false ck.
Proof.
  intros Hf Hd. unfold base_call. cbv zeta.
  match goal with
  |- context [diff1 ?r ?c ?a ?k] => pose proof (Hd r c a k) as E;
       destruct (diff1 r c a k) as [b1|l1], (diff2 r c a k) as [b2|l2]; try contradiction
  end.
  - simpl in E. subst b2. reflexivity.
  - simpl in E. destruct l1 as [|x1 l1], l2 as [|x2 l2].
    + reflexivity.
    + apply Permutation_nil in E. discriminate.
    + apply Permutation_sym, Permutation_nil in E. discriminate.
    + rewrite (sorted_strs_perm_eq _ _ (Permutation_map _ (Hf _ _ _ E))). reflexivity.
Qed.

Lemma concat_nl_empty (l : list string) : String.concat nl l = "" <-> l = [] \/ l = [""].
Proof.
  split.
  - destruct l as [|x [|y l]]; simpl; intro H; [left; reflexivity | right; subst; reflexivity|].
    destruct x; discriminate.
  - intros [-> | ->]; reflexivity.
Qed.

Lemma sorted_strs_small (l : list string) :
  sorted_strs l = [] \/ sorted_strs l = [""] <-> l = [] \/ l = [""].
Proof.
  pose proof (sorted_strs_perm l) as P. split.
  - intros [E|E]; rewrite E in P.
    + left. apply Permutation_nil, Permutation_sym, P.
    + right. apply Permutation_length_1_inv, Permutation_sym, P.
  - intros [-> | ->]; [left | right]; reflexivity.
Qed.

Lemma diff_msg_formatter_false (ref comp : string) (reason : reason_val) (args : list argval)
    (a1 a2 a3 a4 a5 a6 a7 a8 : argval) :
  diff_msg_formatter ref comp reason args a1 a2 a3 a4 a5 a6 a7 a8 = VFalse <->
  reason_truthy reason = false.
Proof.
  unfold diff_msg_formatter. destruct (reason_truthy reason); simpl; split; intro H;
    first [reflexivity | discriminate].
Qed.

(** X18: a call of [BaseComparator.__call__] (default [sort],
    [concatenate] and [report]) reports no difference ([False]) exactly
    when the raw diff is [False], or an empty iterable, or an iterable
    whose filtered and formatted differences are none or a single empty
    string: then the joined string is empty. *)
Theorem base_call_false_iff {D : Type} (load : string -> kwdict -> D)
    (format_data : D -> D -> kwdict -> D) (diff : D -> D -> list argval -> kwdict -> diff_out)
    (filter_stage : list string -> kwdict -> list string) (format_diff : string -> kwdict -> string)
    (b : base_comparator) (ref_file comp_file : string) (diff_args : list argval)
    (ck : call_kwargs) (d : diff_out) :
  base_call load format_data diff filter_stage format_diff b ref_file comp_file diff_args true ck
    = inl d ->
  (base_call load format_data diff filter_stage format_diff b ref_file comp_file diff_args false ck
     = inr VFalse <->
   match d with
   | DBool bb => bb = false
   | DSeq l =>
       l = [] \/
       (map (fun i => format_diff i (stage_kwargs b ck SFormatDiff))
          (filter_stage l (stage_kwargs b ck SFilter)) = [] \/
        map (fun i => format_diff i (stage_kwargs b ck SFormatDiff))
          (filter_stage l (stage_kwargs b ck SFilter)) = [""])
   end).
Proof.
  unfold base_call. cbv zeta. intro H. cbv iota in H.
  match type of H with
  | inl ?x = _ => assert (Hx : x = d) by (injection H; auto); rewrite Hx; clear H Hx
  end.
  split.
  - intro E. injection E as E. apply diff_msg_formatter_false in E.
    destruct d as [[|]|[|x l]]; simpl in E; try discriminate; [reflexivity | left; reflexivity |].
    right. apply sorted_strs_small, concat_nl_empty, String.eqb_eq.
    apply Bool.negb_false_iff in E. exact E.
  - intro M. f_equal. apply diff_msg_formatter_false.
    destruct d as [[|]|[|x l]]; simpl in M |- *; [discriminate | reflexivity | reflexivity |].
    destruct M as [M|M]; [discriminate|].
    apply sorted_strs_small, concat_nl_empty in M. rewrite M. reflexivity.
Qed.

(** X19: a [DefaultComparator()] called on two files without extra
    arguments reports [False] when [filecmp.cmp] finds them equal and
    otherwise exactly "The files '<ref>' and '<comp>' are different.";
    with [return_raw_diffs] it returns [not filecmp.cmp(ref, comp)]. *)
Theorem default_comparator_message (filecmp_cmp : string -> string -> bool)
    (ref_file comp_file : string) :
  default_comparator_call filecmp_cmp (new_base_comparator None None None None None None None None)
    ref_file comp_file [] false no_kwargs =
  inr (if filecmp_cmp ref_file comp_file then VFalse
       else VStr ("The files '" ++ ref_file ++ "' and '" ++ comp_file ++ "' are different.")) /\
  default_comparator_call filecmp_cmp (new_base_comparator None None None None None None None None)
    ref_file comp_file [] true no_kwargs =
  inl (DBool (negb (filecmp_cmp ref_file comp_file))).
Proof.
  unfold default_comparator_call, base_call, base_load, base_format_data. cbn.
  destruct (filecmp_cmp ref_file comp_file); split; reflexivity.
Qed.

Definition id_filter_perm (l1 l2 : list string) (k : kwdict) :
  Permutation l1 l2 -> Permutation (base_filter l1 k) (base_filter l2 k) := fun P => P.

Lemma base_call_order_independent_witness :
  base_call base_load base_format_data (fun _ _ _ _ => DSeq ["b"; "a"]) base_filter
    base_format_diff (new_base_comparator None None None None None None None None)
    "ref" "comp" [] false no_kwargs =
  base_call base_load base_format_data (fun _ _ _ _ => DSeq ["a"; "b"]) base_filter
    base_format_diff (new_base_comparator None None None None None None None None)
    "ref" "comp" [] false no_kwargs.
Proof.
  apply base_call_order_independent.
  - exact id_filter_perm.
  - intros r c a k. simpl. apply perm_swap.
Defined.

Lemma base_call_false_iff_witness :
  base_call base_load base_format_data (fun _ _ _ _ => DSeq [""]) base_filter
    base_format_diff (new_base_comparator None None None None None None None None)
    "ref" "comp" [] false no_kwargs = inr VFalse.
Proof.
  apply (base_call_false_iff base_load base_format_data (fun _ _ _ _ => DSeq [""]) base_filter
           base_format_diff (new_base_comparator None None None None None None None None)
           "ref" "comp" [] no_kwargs (DSeq [""])).
  - reflexivity.
  - right. right. reflexivity.
Defined.

(** ** [DictComparator.format_diff] *)

(** X20: [DictComparator.format_diff] raises [KeyError(action)] for every
    action other than ["add"], ["change"] and ["remove"], whatever the key
    and the value: in particular for the ["missing_ref_entry"] and
    ["missing_comp_entry"] differences that [format_data] records, whose
    templates in [_ACTION_MAPPING] are never filled, since
    [_format_mapping] has no formatter for them. *)
Theorem dict_format_diff_other_actions {V : Type} (fa fr : V -> string) (fc : V -> list string)
    (action : string) (key : dkey) (value : V) :
  action <> "add" -> action <> "change" -> action <> "remove" ->
  dict_format_diff fa fr fc action key value = Raise (key_error_of action).
Proof.
  intros Ha Hc Hr. unfold dict_format_diff, format_mapping.
  assert (Ga : String.eqb action "add" = false) by (apply String.eqb_neq; exact Ha).
  assert (Gc : String.eqb action "change" = false) by (apply String.eqb_neq; exact Hc).
  assert (Gr : String.eqb action "remove" = false) by (apply String.eqb_neq; exact Hr).
  unfold action_mapping. cbn [dict_get]. rewrite Ga, Gc, Gr.
  destruct (String.eqb action "missing_ref_entry"); [reflexivity|].
  destruct (String.eqb action "missing_comp_entry"); reflexivity.
Qed.

Lemma dict_format_diff_other_actions_witness :
  "missing_ref_entry" <> "add" /\ "missing_ref_entry" <> "change" /\
  "missing_ref_entry" <> "remove" /\
  dict_format_diff (fun _ : nat => "") (fun _ => "") (fun _ => []) "missing_ref_entry"
    (KStr "a.b") 0 = Raise (key_error_of "missing_ref_entry").
Proof.
  split; [discriminate|]. split; [discriminate|]. split; [discriminate|].
  apply dict_format_diff_other_actions; discriminate.
Defined.

(** [c] is not a dot, for every character [c] of [s]. *)
Fixpoint no_dot (s : string) : bool :=
  match s with
  | EmptyString => true
  | String c s' => negb (Ascii.eqb c "."%char) && no_dot s'
  end.

Lemma split_dot_nil (s : string) : split_dot s <> [].
Proof.
  destruct s as [|c s]; simpl; [discriminate|].
  destruct (Ascii.eqb c "."%char); [discriminate|]. destruct (split_dot s); discriminate.
Qed.

Lemma split_dot_app (s rest : string) :
  no_dot s = true ->
  split_dot (s ++ rest) = match split_dot rest with x :: r => (s ++ x) :: r | [] => [s] end.
Proof.
  induction s as [|c s IH]; simpl; intro H.
  - destruct (split_dot rest) eqn:E; [exfalso; exact (split_dot_nil rest E) | reflexivity].
  - apply andb_prop in H as [Hc Hs]. apply Bool.negb_true_iff in Hc. rewrite Hc.
    rewrite (IH Hs). destruct (split_dot rest) eqn:E; [exfalso; exact (split_dot_nil rest E)|].
    reflexivity.
Qed.

Lemma string_app_empty (s : string) : (s ++ "")%string = s.
Proof. induction s as [|c s IH]; simpl; [reflexivity | rewrite IH; reflexivity]. Qed.

Lemma split_dot_concat (ks : list string) :
  ks <> [] -> forallb no_dot ks = true -> split_dot (String.concat "." ks) = ks.
Proof.
  induction ks as [|k ks IH]; intros Hne Hd; [contradiction|].
  simpl in Hd. apply andb_prop in Hd as [Hk Hks].
  destruct ks as [|k2 ks'].
  - simpl. rewrite <- (string_app_empty k) at 1. rewrite (split_dot_app k "" Hk). simpl.
    rewrite string_app_empty. reflexivity.
  - change (String.concat "." (k :: k2 :: ks')) with (k ++ "." ++ String.concat "." (k2 :: ks'))%string.
    rewrite (split_dot_app k _ Hk).
    replace (split_dot ("." ++ String.concat "." (k2 :: ks'))%string)
      with ("" :: split_dot (String.concat "." (k2 :: ks'))) by reflexivity.
    rewrite (IH ltac:(discriminate) Hks). rewrite string_app_empty. reflexivity.
Qed.

(** X21: [_format_key] gives the same result for a dotted string key as
    for the list of its components, when no component holds a dot:
    ["a.b"] and [["a", "b"]] both give ["[a][b]"], and [""] and [[]] both
    give [""]. *)
Theorem format_key_str_list (ks : list string) :
  forallb no_dot ks = true ->
  format_key (KStr (String.concat "." ks)) = format_key (KList ks).
Proof.
  intro Hd. unfold format_key. destruct ks as [|k ks]; [reflexivity|].
  rewrite (split_dot_concat (k :: ks) ltac:(discriminate) Hd). reflexivity.
Qed.

Lemma format_key_str_list_witness :
  forallb no_dot ["a"; "b"] = true /\
  format_key (KStr "a.b") = format_key (KList ["a"; "b"]) /\
  format_key (KList ["a"; "b"]) = "[a][b]".
Proof.
  split; [reflexivity|]. split; [|reflexivity].
  apply (format_key_str_list ["a"; "b"]). reflexivity.
Defined.

(** ** Evolving a configuration ([_check_config] with keyword arguments) *)

Lemma make_config_setup (rc : string -> bool) (reg : list (option string * strategy))
    (a : config_args) (h h' : heap) (c : config) :
  make_config rc reg a h = (Ret c, h') ->
  specific_args c = match a_specific_args a with None => [] | Some d => d end /\
  setup_pattern_args rc (specific_args c) [] h = (Ret (pattern_specific_args c), h').
Proof.
  unfold make_config, bind, ret, raise, lift. intro H.
  destruct (a_export a) as [b|s].
  2: destruct (is_blank s); [discriminate|].
  all: destruct (compile_opt_patterns rc (a_include a)); [|discriminate];
       destruct (compile_opt_patterns rc (a_exclude a)); [|discriminate];
       destruct (setup_pattern_args rc _ [] h) as [[psa|e] h1] eqn:E; [|discriminate];
       inversion H; subst; split; [reflexivity | exact E].
Qed.

(** [setup_pattern_args] never gives a dictionary a ["patterns"] key, and
    takes it from every dictionary it visits. *)
Lemma setup_pattern_args_clears (rc : string -> bool) (sa : list (string * nat)) :
  forall psa h psa' h',
  setup_pattern_args rc sa psa h = (Ret psa', h') ->
  (forall j, dict_mem String.eqb "patterns" (h j) = false ->
             dict_mem String.eqb "patterns" (h' j) = false) /\
  (forall fp i, In (fp, i) sa -> dict_mem String.eqb "patterns" (h' i) = false).
Proof.
  induction sa as [|[fp i] rest IH]; intros psa h psa' h' H.
  - simpl in H. unfold ret in H. inversion H; subst.
    split; [intros j Hj; exact Hj | intros fp i []].
  - simpl in H. unfold bind, get_dict, put_dict, ret, lift in H.
    destruct (dict_mem String.eqb "patterns" (h i)) eqn:Em.
    + destruct (dict_pop String.eqb "patterns" (AList []) (h i)) as [pats v'] eqn:Ep.
      apply dict_pop_eq in Ep. subst v'.
      destruct (iter_patterns pats) as [ps|e]; [|discriminate].
      destruct (add_group_patterns rc fp i ps psa) as [psa1|e]; [|discriminate].
      destruct (IH _ _ _ _ H) as [P1 P2].
      split.
      * intros j Hj. apply P1. unfold heap_upd. destruct (Nat.eqb j i);
          [apply dict_mem_remove_same | exact Hj].
      * intros fp' i' [Heq|Hin].
        -- injection Heq as <- <-. apply P1. unfold heap_upd. rewrite Nat.eqb_refl.
           apply dict_mem_remove_same.
        -- exact (P2 fp' i' Hin).
    + destruct (IH _ _ _ _ H) as [P1 P2]. split; [exact P1|].
      intros fp' i' [Heq|Hin]; [injection Heq as <- <-; apply P1, Em | exact (P2 fp' i' Hin)].
Qed.

Lemma setup_pattern_args_noop (rc : string -> bool) (sa : list (string * nat)) :
  forall psa h,
  (forall fp i, In (fp, i) sa -> dict_mem String.eqb "patterns" (h i) = false) ->
  setup_pattern_args rc sa psa h = (Ret psa, h).
Proof.
  induction sa as [|[fp i] rest IH]; intros psa h Hn; [reflexivity|].
  simpl. unfold bind, get_dict. rewrite (Hn fp i (or_introl eq_refl)).
  apply IH. intros fp' i' Hin. exact (Hn fp' i' (or_intror Hin)).
Qed.

Definition sets_specific_args (kw : cfg_kw) : bool :=
  match kw with KwSpecificArgs _ => true | _ => false end.

Lemma fold_apply_kw_specific_args (kws : list cfg_kw) :
  forall a, forallb (fun k => negb (sets_specific_args k)) kws = true ->
  a_specific_args (fold_left apply_kw kws a) = a_specific_args a.
Proof.
  induction kws as [|k kws IH]; intros a H; [reflexivity|].
  simpl in H. apply andb_prop in H. destruct H as [Hk H].
  simpl. rewrite (IH _ H). destruct k; try reflexivity; discriminate.
Qed.

Lemma evolve_pattern_args_empty (rc : string -> bool) (reg : list (option string * strategy))
    (a : config_args) (kws : list cfg_kw) (h h1 h2 : heap) (c c' : config) :
  make_config rc reg a h = (Ret c, h1) ->
  forallb (fun k => negb (sets_specific_args k)) kws = true ->
  evolve rc reg c kws h1 = (Ret c', h2) ->
  specific_args c' = specific_args c /\ pattern_specific_args c' = [] /\ h2 = h1.
Proof.
  intros H1 Hk H2. unfold evolve in H2.
  destruct (make_config_setup _ _ _ _ _ _ H1) as [_ S1].
  destruct (setup_pattern_args_clears _ _ _ _ _ _ S1) as [_ C1].
  destruct (make_config_setup _ _ _ _ _ _ H2) as [E2 S2].
  rewrite (fold_apply_kw_specific_args _ _ Hk) in E2. simpl in E2.
  rewrite E2 in S2. rewrite (setup_pattern_args_noop rc _ [] h1 C1) in S2.
  injection S2 as P E. split; [exact E2|]. split; [symmetry; exact P | symmetry; exact E].
Qed.

(** X22: a configuration built by [ComparisonConfig(...)] and then evolved
    by [attrs.evolve(config, **kwargs)] (what [_check_config] does when
    [compare_trees] gets keyword arguments), with no new [specific_args],
    keeps no pattern group: the shared dictionaries lost their ["patterns"]
    keys in the first construction, so [pattern_specific_args] of the
    evolved configuration is empty and the dictionaries are left as they
    were. *)
Theorem evolve_drops_pattern_groups (rc : string -> bool) (reg : list (option string * strategy))
    (a : config_args) (kws : list cfg_kw) (h h1 h2 : heap) (c c' : config) :
  make_config rc reg a h = (Ret c, h1) ->
  forallb (fun k => negb (sets_specific_args k)) kws = true ->
  evolve rc reg c kws h1 = (Ret c', h2) ->
  specific_args c' = specific_args c /\ pattern_specific_args c' = [] /\ h2 = h1.
Proof.
  exact (evolve_pattern_args_empty rc reg a kws h h1 h2 c c').
Qed.

Definition evolve_heap : heap := fun i =>
  match i with
  | 2 => [("patterns", AList ["data/"]); ("args", AList ["y"])]
  | _ => []
  end.

Definition evolve_args : config_args :=
  mk_args None None None (Some [("group", 2)]) false (EFBool false) Sequential None.

Lemma evolve_drops_pattern_groups_witness :
  exists c h1 c',
  make_config all_compile std_registry evolve_args evolve_heap = (Ret c, h1) /\
  pattern_specific_args c = [("data/", 2)] /\
  evolve all_compile std_registry c [KwExecutor Thread] h1 = (Ret c', h1) /\
  specific_args c' = specific_args c /\ pattern_specific_args c' = [] /\ h1 = h1.
Proof.
  eexists _, _, _. split; [cbv; reflexivity|]. split; [reflexivity|].
  split; [cbv; reflexivity|].
  eapply (evolve_drops_pattern_groups all_compile std_registry evolve_args [KwExecutor Thread]
            evolve_heap); [cbv; reflexivity | reflexivity | cbv; reflexivity].
Defined.

(** ** How many tasks the process mode submits *)

Lemma split_into_chunks_length {A : Type} (items : list A) (n : Z) :
  (0 < n)%Z ->
  length (split_into_chunks items n) =
  (length items + chunk_size_of items n - 1) / chunk_size_of items n.
Proof.
  intro Hn. unfold split_into_chunks.
  replace (n <=? 0)%Z with false by (symmetry; apply Z.leb_gt; exact Hn).
  unfold py_range_step. rewrite !length_map, length_seq. reflexivity.
Qed.

(** X23: for [n > 0] workers, [_split_into_chunks] makes one chunk per
    item when there are fewer items than workers, and otherwise at least
    [n] and at most [2n - 1] chunks: the process mode may submit almost
    twice as many tasks as there are workers. *)
Theorem split_into_chunks_count {A : Type} (items : list A) (n : Z) :
  (0 < n)%Z ->
  (length items < Z.to_nat n -> length (split_into_chunks items n) = length items) /\
  (Z.to_nat n <= length items ->
   Z.to_nat n <= length (split_into_chunks items n) <= 2 * Z.to_nat n - 1).
Proof.
  intro Hn. rewrite (split_into_chunks_length items n Hn). unfold chunk_size_of.
  set (L := length items). set (k := Z.to_nat n).
  assert (Hk : 0 < k) by (unfold k; lia).
  split.
  - intro HL. rewrite (Nat.div_small L k HL). simpl Nat.max.
    rewrite Nat.div_1_r. lia.
  - intro HL.
    assert (Hq : 1 <= L / k).
    { apply Nat.div_le_lower_bound; lia. }
    replace (Nat.max 1 (L / k)) with (L / k) by lia.
    set (q := L / k) in *.
    pose proof (Nat.div_mod L k ltac:(lia)) as Hdm. pose proof (Nat.mod_upper_bound L k ltac:(lia)) as Hr.
    fold q in Hdm. set (r := L mod k) in *.
    split.
    + apply Nat.div_le_lower_bound; [lia|]. nia.
    + assert ((L + q - 1) / q < 2 * k); [|lia].
      apply Nat.Div0.div_lt_upper_bound. nia.
Qed.

Lemma split_into_chunks_count_witness :
  (0 < 3)%Z /\ length (split_into_chunks [1; 2; 3; 4; 5] 3%Z) = 5 /\
  (3 <= length (split_into_chunks [1; 2; 3; 4; 5] 3%Z) <= 2 * 3 - 1).
Proof.
  split; [lia|]. split; [reflexivity|].
  apply (split_into_chunks_count [1; 2; 3; 4; 5] 3%Z ltac:(lia)). simpl. lia.
Defined.

(** ** The configuration [assert_equal_trees] compares with *)

(** X24: [assert_equal_trees] always passes [export_formatted_files] on to
    [compare_trees], so a configuration given to it is always evolved by
    [_check_config]. For a configuration built by [ComparisonConfig(...)],
    and no new [specific_args], the configuration the comparison runs with
    finds the override arguments of a file in its exact-path entry only:
    the pattern groups of the given configuration are never applied. *)
Theorem assert_equal_trees_ignores_pattern_groups (rc : string -> bool)
    (rm : string -> string -> bool) (reg : list (option string * strategy))
    (a : config_args) (e : export_flag) (kws : list cfg_kw) (h h1 h2 : heap) (c c' : config) :
  make_config rc reg a h = (Ret c, h1) ->
  forallb (fun k => negb (sets_specific_args k)) kws = true ->
  check_config rc reg (Some c) (KwExport e :: kws) h1 = (Ret c', h2) ->
  h2 = h1 /\
  forall rel, find_specific_args rm c' rel =
              match dict_get String.eqb rel (specific_args c) with
              | Some i => FromExact i
              | None => NoArgs
              end.
Proof.
  intros H1 Hk H2. simpl in H2.
  destruct (evolve_pattern_args_empty rc reg a (KwExport e :: kws) h h1 h2 c c' H1 Hk H2)
    as [Es [Ep Eh]].
  split; [exact Eh|]. intro rel. unfold find_specific_args. rewrite Es, Ep. reflexivity.
Qed.

Lemma assert_equal_trees_ignores_pattern_groups_witness :
  exists c h1 c',
  make_config all_compile std_registry evolve_args evolve_heap = (Ret c, h1) /\
  find_specific_args literal_match c "data/x.json" = FromPattern 2 /\
  check_config all_compile std_registry (Some c) [KwExport (EFBool false)] h1 = (Ret c', h1) /\
  find_specific_args literal_match c' "data/x.json" = NoArgs.
Proof.
  eexists _, _, _. split; [cbv; reflexivity|]. split; [reflexivity|].
  split; [cbv; reflexivity|].
  destruct (assert_equal_trees_ignores_pattern_groups all_compile literal_match std_registry
              evolve_args (EFBool false) [] evolve_heap _ _ _ _
              ltac:(cbv; reflexivity) ltac:(reflexivity) ltac:(cbv; reflexivity)) as [_ F].
  rewrite F. reflexivity.
Defined.

(** ** [XmlComparator._cast_from_attribute] *)

(** X25: the [type] attribute of an XML element is read case-insensitively,
    and an element without text ([child.text] is [None]) is cast through
    [str(None)]: with [type="str"] it becomes the string ["None"], with
    [type="bool"] it raises ValueError("Bool attributes expect 'true' or
    'false'."); a [bool] text is read case-insensitively too. *)
Theorem xml_cast_empty_element {F : Type} (py_int : option string -> outcome Z)
    (py_float : option string -> outcome F) (attr : list (string * string)) (t : string) :
  dict_get String.eqb "type" attr = Some t ->
  (str_lower t = "str" ->
   cast_from_attribute py_int py_float None attr = Ret (XStrV "None")) /\
  (str_lower t = "bool" ->
   cast_from_attribute py_int py_float None attr = Raise bool_attr_error /\
   forall s, str_lower s = "true" ->
   cast_from_attribute py_int py_float (Some s) attr = Ret (XBoolV true)).
Proof.
  intro Hg. unfold cast_from_attribute, dict_mem. rewrite Hg. cbn [negb].
  split; [intro Hl; rewrite Hl; reflexivity|].
  intro Hl. rewrite Hl. split; [reflexivity|].
  intros s Hs. simpl py_str_text. rewrite Hs. reflexivity.
Qed.

Lemma xml_cast_empty_element_witness :
  cast_from_attribute (fun _ => Ret 0%Z) (fun _ => Ret tt) None [("type", "STR")] =
    Ret (XStrV "None") /\
  cast_from_attribute (fun _ => Ret 0%Z) (fun _ => Ret tt) (Some "TrUe") [("type", "Bool")] =
    Ret (XBoolV true).
Proof.
  destruct (xml_cast_empty_element (fun _ => Ret 0%Z) (fun _ => Ret tt) [("type", "STR")] "STR"
              eq_refl) as [A _].
  destruct (xml_cast_empty_element (fun _ => Ret 0%Z) (fun _ => Ret tt) [("type", "Bool")] "Bool"
              eq_refl) as [_ B].
  split; [exact (A eq_refl) | exact (proj2 (B eq_refl) "TrUe" eq_refl)].
Defined.
